(** * cph50-control: the Cloudflare Worker that starts the charger

    A shallow embedding of [src/index.ts]: the retrying fetch helper, the
    charge flow (authenticate, then start the session), the alert mail, the
    scheduled gate and the HTTP routes [/charge] and [/setup].

    Effects are explicit.  A computation of the worker is a function from a
    [World] (the network, the number of requests sent so far, the clock) to a
    completion (a value or a thrown JavaScript value), the next world and the
    list of events it produced, oldest first: requests sent, timer waits and
    [console.error] lines. *)

From Stdlib Require Import ZArith String Ascii List Bool Lia DecimalString.
Import ListNotations.
Local Open Scope string_scope.
Local Open Scope Z_scope.

Set Implicit Arguments.
Set Warnings "-register-all".

(** ** JavaScript values *)

(** The values the worker handles: what [JSON.parse] yields, plus
    [undefined] for a missing property.  Numbers are the integers that a
    JavaScript number holds exactly and prints in plain decimal; strings are
    byte strings (UTF-8); an object is its properties in enumeration order,
    each key once. *)
Inductive JsValue : Type :=
| JUndefined
| JNull
| JBool (b : bool)
| JNum (z : Z)
| JStr (s : string)
| JArr (items : list JsValue)
| JObj (fields : list (string * JsValue)).

Definition string_of_Z (z : Z) : string := NilZero.string_of_int (Z.to_int z).

Fixpoint join (sep : string) (l : list string) : string :=
  match l with
  | [] => ""
  | [x] => x
  | x :: rest => x ++ sep ++ join sep rest
  end.

(** [String(v)] *)
Fixpoint ToString (v : JsValue) : string :=
  match v with
  | JUndefined => "undefined"
  | JNull => "null"
  | JBool true => "true"
  | JBool false => "false"
  | JNum z => string_of_Z z
  | JStr s => s
  | JArr items =>
      join "," (map (fun x => match x with
                              | JUndefined | JNull => ""
                              | _ => ToString x
                              end) items)
  | JObj _ => "[object Object]"
  end.

(** [!!v] *)
Definition truthy (v : JsValue) : bool :=
  match v with
  | JUndefined | JNull => false
  | JBool b => b
  | JNum z => negb (z =? 0)
  | JStr s => negb (String.eqb s "")
  | JArr _ | JObj _ => true
  end.

(** [a || b] on values already computed *)
Definition js_or (a b : JsValue) : JsValue := if truthy a then a else b.

Fixpoint lookup (k : string) (fields : list (string * JsValue)) : JsValue :=
  match fields with
  | [] => JUndefined
  | (k', v) :: rest => if String.eqb k k' then v else lookup k rest
  end.

(** [v?.k]: [undefined] on [null] and [undefined], and on a primitive or an
    array for the property names the worker reads, none of which a
    primitive or an array of parsed JSON has. *)
Definition optProp (v : JsValue) (k : string) : JsValue :=
  match v with
  | JObj fields => lookup k fields
  | _ => JUndefined
  end.

(** ** JSON.stringify *)

Definition hexDigit (n : nat) : ascii :=
  match n with
  | 0 => "0" | 1 => "1" | 2 => "2" | 3 => "3" | 4 => "4" | 5 => "5"
  | 6 => "6" | 7 => "7" | 8 => "8" | 9 => "9" | 10 => "a" | 11 => "b"
  | 12 => "c" | 13 => "d" | 14 => "e" | _ => "f"
  end%char%nat.

Definition backslash : ascii := ascii_of_nat 92.
Definition dquote : ascii := ascii_of_nat 34.
Definition newline : string := String (ascii_of_nat 10) "".

Definition escapeChar (c : ascii) : string :=
  let n := nat_of_ascii c in
  let esc (x : ascii) := String backslash (String x "") in
  if Nat.eqb n 34 then esc dquote
  else if Nat.eqb n 92 then esc backslash
  else if Nat.eqb n 8 then esc "b"%char
  else if Nat.eqb n 9 then esc "t"%char
  else if Nat.eqb n 10 then esc "n"%char
  else if Nat.eqb n 12 then esc "f"%char
  else if Nat.eqb n 13 then esc "r"%char
  else if Nat.ltb n 32 then
    String backslash
      (String "u" (String "0" (String "0"
        (String (hexDigit (Nat.div n 16)) (String (hexDigit (Nat.modulo n 16)) "")))))
  else String c "".

Fixpoint escapeString (s : string) : string :=
  match s with
  | EmptyString => ""
  | String c rest => escapeChar c ++ escapeString rest
  end.

Definition QuoteJSONString (s : string) : string :=
  String dquote (escapeString s ++ String dquote "").

Definition isEmpty (s : string) : bool := String.eqb s "".

(** [SerializeJSONProperty]: [None] is the [undefined] result, which drops a
    property from an object and prints as [null] inside an array.  [gap] is
    the indentation unit ([""] for the compact form). *)
Fixpoint serialize (gap indent : string) (v : JsValue) : option string :=
  match v with
  | JUndefined => None
  | JNull => Some "null"
  | JBool true => Some "true"
  | JBool false => Some "false"
  | JNum z => Some (string_of_Z z)
  | JStr s => Some (QuoteJSONString s)
  | JArr items =>
      let stepback := indent in
      let indent := indent ++ gap in
      let partial :=
        map (fun x => match serialize gap indent x with
                      | Some s => s
                      | None => "null"
                      end) items in
      Some (match partial with
            | [] => "[]"
            | _ =>
                if isEmpty gap then "[" ++ join "," partial ++ "]"
                else "[" ++ newline ++ indent
                         ++ join ("," ++ newline ++ indent) partial
                         ++ newline ++ stepback ++ "]"
            end)
  | JObj fields =>
      let stepback := indent in
      let indent := indent ++ gap in
      let partial :=
        flat_map (fun kv => match serialize gap indent (snd kv) with
                            | Some s =>
                                [QuoteJSONString (fst kv)
                                   ++ (if isEmpty gap then ":" else ": ") ++ s]
                            | None => []
                            end) fields in
      Some (match partial with
            | [] => "{}"
            | _ =>
                if isEmpty gap then "{" ++ join "," partial ++ "}"
                else "{" ++ newline ++ indent
                         ++ join ("," ++ newline ++ indent) partial
                         ++ newline ++ stepback ++ "}"
            end)
  end.

(** [JSON.stringify(v)]; the worker only ever passes an object literal. *)
Definition JSON_stringify (v : JsValue) : string :=
  match serialize "" "" v with
  | Some s => s
  | None => "undefined"
  end.

(** [JSON.stringify(v, null, 2)] *)
Definition JSON_stringify_2 (v : JsValue) : string :=
  match serialize "  " "" v with
  | Some s => s
  | None => "undefined"
  end.

(** ** Thrown values *)

(** What a [catch] clause can receive: an [Error] instance (its [name] and
    [message]) or any other value. *)
Inductive JsThrown : Type :=
| JsError (name message : string)
| JsOther (v : JsValue).

(** [err instanceof Error] *)
Definition instanceofError (e : JsThrown) : bool :=
  match e with
  | JsError _ _ => true
  | JsOther _ => false
  end.

(** [String(err)]: [Error.prototype.toString] for an error. *)
Definition String_of_thrown (e : JsThrown) : string :=
  match e with
  | JsError name message =>
      if isEmpty name then message
      else if isEmpty message then name
      else name ++ ": " ++ message
  | JsOther v => ToString v
  end.

(** ** Requests, responses and the world *)

Inductive RequestBody : Type :=
| FormBody (params : list (string * string))   (* URLSearchParams(...).toString() *)
| TextBody (text : string).

Record Request : Type := mkRequest {
  req_url : string;
  req_method : string;
  req_headers : list (string * string);
  req_body : RequestBody;
  req_redirect : option string
}.

(** A response of a remote server: [resp_text] is what [res.text()] yields
    and [resp_json] what [res.json()] yields, a value or the [SyntaxError]
    thrown for a body that is not JSON. *)
Record Response : Type := mkResponse {
  resp_status : Z;
  resp_text : string;
  resp_json : JsThrown + JsValue
}.

(** [res.ok] *)
Definition resp_ok (r : Response) : bool :=
  (200 <=? resp_status r) && (resp_status r <=? 299).

Inductive Outcome : Type :=
| Responds (r : Response)
| Rejects (e : JsThrown).

Inductive Event : Type :=
| EvFetch (r : Request)
| EvDelay (ms : Z)
| EvConsoleError (args : list string).

(** The [n]-th request the worker sends is answered by [net n] applied to
    that request. *)
Record World : Type := mkWorld {
  net : nat -> Request -> Outcome;
  calls : nat;
  clock : Z
}.

Inductive Completion (A : Type) : Type :=
| Normal (a : A)
| Throw (e : JsThrown).
Arguments Throw {A} e.

Definition M (A : Type) : Type := World -> Completion A * World * list Event.

Definition ret {A} (a : A) : M A := fun w => (Normal a, w, []).

Definition throw {A} (e : JsThrown) : M A := fun w => (Throw e, w, []).

Definition bind {A B} (m : M A) (k : A -> M B) : M B :=
  fun w =>
    match m w with
    | (Normal a, w1, ev1) =>
        match k a w1 with
        | (c, w2, ev2) => (c, w2, (ev1 ++ ev2)%list)
        end
    | (Throw e, w1, ev1) => (Throw e, w1, ev1)
    end.

(** [try { m } catch (err) { h err }] *)
Definition try_catch {A} (m : M A) (h : JsThrown -> M A) : M A :=
  fun w =>
    match m w with
    | (Normal a, w1, ev1) => (Normal a, w1, ev1)
    | (Throw e, w1, ev1) =>
        match h e w1 with
        | (c, w2, ev2) => (c, w2, (ev1 ++ ev2)%list)
        end
    end.

Declare Scope js_scope.
Delimit Scope js_scope with js.
Notation "x <- m ;; k" := (bind m (fun x => k))
  (at level 61, m at next level, right associativity) : js_scope.
Notation "m ;;; k" := (bind m (fun _ => k))
  (at level 61, right associativity) : js_scope.
Local Open Scope js_scope.

Definition result {A} (r : Completion A * World * list Event) : Completion A :=
  fst (fst r).
Definition world_after {A} (r : Completion A * World * list Event) : World :=
  snd (fst r).
Definition events {A} (r : Completion A * World * list Event) : list Event :=
  snd r.

(** [fetch(req)] *)
Definition fetch (req : Request) : M Response :=
  fun w =>
    let w' := mkWorld (net w) (S (calls w)) (clock w) in
    match net w (calls w) req with
    | Responds r => (Normal r, w', [EvFetch req])
    | Rejects e => (Throw e, w', [EvFetch req])
    end.

(** [delay(ms)]: the timer promise *)
Definition delay (ms : Z) : M unit :=
  fun w => (Normal tt, mkWorld (net w) (calls w) (clock w + ms), [EvDelay ms]).


Definition console_error (args : list string) : M unit :=
  fun w => (Normal tt, w, [EvConsoleError args]).

(** [res.json()] and [res.text()] *)
Definition json (r : Response) : M JsValue :=
  match resp_json r with
  | inr v => ret v
  | inl e => throw e
  end.

Definition text (r : Response) : M string := ret (resp_text r).

(** [v.k]: a [TypeError] on [null] and [undefined] (V8's message). *)
Definition getProp (v : JsValue) (k : string) : M JsValue :=
  match v with
  | JUndefined | JNull =>
      throw (JsError "TypeError"
               ("Cannot read properties of " ++ ToString v
                  ++ " (reading '" ++ k ++ "')"))
  | _ => ret (optProp v k)
  end.

(** [a || b], the right operand evaluated only when the left is falsy *)
Definition orElse (a b : M JsValue) : M JsValue :=
  x <- a ;; if truthy x then ret x else b.
Infix "|||" := orElse (at level 50, left associativity) : js_scope.

(** ** Constants of the worker *)

Definition AUTH_URL := "https://na.chargepoint.com/users/validate".
Definition HOME_CHARGERS_URL := "https://na.chargepoint.com/home/get_home_chargers".
Definition START_SESSION_URL := "https://na.chargepoint.com/home/start_session".
Definition MAILCHANNELS_URL := "https://api.mailchannels.net/tx/v1/send".

Definition MAX_ATTEMPTS : Z := 3.
Definition BASE_DELAY_MS : Z := 2000.

(** ** fetchWithRetry *)

(** The code after the [while] loop. [lastError = None] is [undefined]. *)
Definition after_loop (lastError : option JsThrown) (lastResponse : option Response)
  : M Response :=
  match lastResponse with
  | Some r => ret r
  | None =>
      match lastError with
      | Some e =>
          throw (if instanceofError e then e
                 else JsError "Error" (String_of_thrown e))
      | None => throw (JsError "Error" "undefined")
      end
  end.

(** The [try]/[catch] of one iteration: [inl res] is the early [return res],
    [inr] carries the new [lastError] and [lastResponse]. *)
Definition attempt_once (requestFn : M Response) (lastResponse : option Response)
  : M (Response + option JsThrown * option Response) :=
  try_catch
    (res <- requestFn ;;
     if resp_ok res then ret (inl res)
     else ret (inr (Some (JsError "Error" ("HTTP " ++ string_of_Z (resp_status res))),
                    Some res)))
    (fun err => ret (inr (Some err, lastResponse))).

(** The [while (attempt < MAX_ATTEMPTS)] loop; [fuel] bounds the number of
    iterations ([retry_loop_fuel] below: [MAX_ATTEMPTS - attempt] is enough
    and more changes nothing). *)
Fixpoint retry_loop (fuel : nat) (requestFn : M Response) (attempt : Z)
    (lastError : option JsThrown) (lastResponse : option Response) : M Response :=
  match fuel with
  | O => after_loop lastError lastResponse
  | S fuel' =>
      if attempt <? MAX_ATTEMPTS then
        r <- attempt_once requestFn lastResponse ;;
        match r with
        | inl res => ret res
        | inr (lastError', lastResponse') =>
            let attempt' := attempt + 1 in
            if attempt' >=? MAX_ATTEMPTS then after_loop lastError' lastResponse'
            else
              delay (BASE_DELAY_MS * 2 ^ (attempt' - 1)) ;;;
              retry_loop fuel' requestFn attempt' lastError' lastResponse'
        end
      else after_loop lastError lastResponse
  end.

Definition fetchWithRetry (requestFn : M Response) : M Response :=
  retry_loop (Z.to_nat MAX_ATTEMPTS) requestFn 0 None None.

(** ** The environment bindings *)

(** A binding is a string or, when it was never set, [undefined] ([None]). *)
Record Env : Type := mkEnv {
  CP_USERNAME : option string;
  CP_PASSWORD : option string;
  CP_STATION_ID : option string;
  ALERT_EMAIL : option string;
  TZ_REGION : option string
}.

Definition env_value (b : option string) : JsValue :=
  match b with
  | Some s => JStr s
  | None => JUndefined
  end.

(** ** sendAlert *)

Definition alertPayload (env : Env) (subject body : string) : JsValue :=
  JObj [ ("personalizations",
           JArr [ JObj [ ("to", JArr [ JObj [ ("email", env_value (ALERT_EMAIL env)) ] ]) ] ]);
         ("from", JObj [ ("email", JStr "no-reply@cph50-control.workers.dev");
                         ("name", JStr "CPH50 Control") ]);
         ("subject", JStr subject);
         ("content", JArr [ JObj [ ("type", JStr "text/plain"); ("value", JStr body) ] ]) ].

Definition alertRequest (env : Env) (subject body : string) : Request :=
  {| req_url := MAILCHANNELS_URL;
     req_method := "POST";
     req_headers := [("content-type", "application/json")];
     req_body := TextBody (JSON_stringify (alertPayload env subject body));
     req_redirect := None |}.

Definition sendAlert (env : Env) (subject body : string) : M unit :=
  try_catch
    (res <- fetch (alertRequest env subject body) ;;
     if negb (resp_ok res)
     then console_error ["MailChannels alert failed"; string_of_Z (resp_status res)]
     else ret tt)
    (fun err => console_error ["MailChannels alert error"; String_of_thrown err]).

(** ** performChargeFlow *)

Record ActionResult : Type := mkResult {
  ok : bool;
  error : option string
}.

Definition URGENT_SUBJECT : string := "⚠️ URGENT: EV Charging Failed".

Definition authRequest (env : Env) : Request :=
  {| req_url := AUTH_URL;
     req_method := "POST";
     req_headers :=
       [("content-type", "application/x-www-form-urlencoded");
        ("user-agent", "ChargePoint/6.113.0 (com.chargepoint.mobile; build:1; iOS 16.0.0)")];
     req_body := FormBody [("user_name", ToString (env_value (CP_USERNAME env)));
                           ("user_password", ToString (env_value (CP_PASSWORD env)))];
     req_redirect := Some "manual" |}.

Definition startRequest (env : Env) (userId sessionToken : JsValue) : Request :=
  {| req_url := START_SESSION_URL;
     req_method := "POST";
     req_headers := [("content-type", "application/x-www-form-urlencoded")];
     req_body := FormBody [("user_id", ToString userId);
                           ("station_id", ToString (env_value (CP_STATION_ID env)));
                           ("coulomb_sess", ToString sessionToken);
                           ("device_id", "cloudflare-worker")];
     req_redirect := None |}.

(** [authJson.userid || String(authJson.user?.id || authJson.user?.user_id || "")] *)
Definition extractUserId (authJson : JsValue) : M JsValue :=
  getProp authJson "userid"
  ||| (v <- ((user <- getProp authJson "user" ;; ret (optProp user "id"))
             ||| (user <- getProp authJson "user" ;; ret (optProp user "user_id"))
             ||| ret (JStr "")) ;;
       ret (JStr (ToString v))).

(** [authJson.sessionStorage?.coulomb_sess || authJson.access_token
     || authJson.auth_token || ""] *)
Definition extractSessionToken (authJson : JsValue) : M JsValue :=
  (ss <- getProp authJson "sessionStorage" ;; ret (optProp ss "coulomb_sess"))
  ||| getProp authJson "access_token"
  ||| getProp authJson "auth_token"
  ||| ret (JStr "").

(** [if (sendAlerts) await sendAlert(env, subject, msg)] *)
Definition alertIf (sendAlerts : bool) (env : Env) (msg : string) : M unit :=
  if sendAlerts then sendAlert env URGENT_SUBJECT msg else ret tt.

Definition failure (msg : string) : ActionResult :=
  {| ok := false; error := Some msg |}.

(** The first [try] block: [inl] is its early [return], [inr] the values of
    [userId] and [sessionToken] it leaves for the second block. *)
Definition authenticate (env : Env) (sendAlerts : bool)
  : M (ActionResult + JsValue * JsValue) :=
  try_catch
    (authRes <- fetchWithRetry (fetch (authRequest env)) ;;
     authJson <- json authRes ;;
     userId <- extractUserId authJson ;;
     sessionToken <- extractSessionToken authJson ;;
     if negb (truthy userId) || negb (truthy sessionToken) then
       userid <- getProp authJson "userid" ;;
       ss <- getProp authJson "sessionStorage" ;;
       let msg :=
         "Auth missing user_id or session token. Got: "
         ++ JSON_stringify
              (JObj [("userid", userid);
                     ("hasCoulomb", JBool (truthy (optProp ss "coulomb_sess")))]) in
       console_error [msg] ;;;
       alertIf sendAlerts env msg ;;;
       ret (inl (failure msg))
     else ret (inr (userId, sessionToken)))
    (fun err =>
       let msg := "Auth error: " ++ String_of_thrown err in
       console_error [msg] ;;;
       alertIf sendAlerts env msg ;;;
       ret (inl (failure msg))).

(** The second [try] block. *)
Definition startSession (env : Env) (sendAlerts : bool) (userId sessionToken : JsValue)
  : M ActionResult :=
  try_catch
    (startRes <- fetchWithRetry (fetch (startRequest env userId sessionToken)) ;;
     if negb (resp_ok startRes) then
       body <- text startRes ;;
       let msg :=
         "Start session failed: " ++ string_of_Z (resp_status startRes)
         ++ newline ++ body in
       console_error ["Start session failed"; string_of_Z (resp_status startRes); body] ;;;
       alertIf sendAlerts env msg ;;;
       ret (failure msg)
     else ret {| ok := true; error := None |})
    (fun err =>
       let msg := "Start session error: " ++ String_of_thrown err in
       console_error [msg] ;;;
       alertIf sendAlerts env msg ;;;
       ret (failure msg)).

Definition performChargeFlow (env : Env) (sendAlerts : bool) : M ActionResult :=
  r <- authenticate env sendAlerts ;;
  match r with
  | inl res => ret res
  | inr (userId, sessionToken) => startSession env sendAlerts userId sessionToken
  end.

(** ** The scheduled gate *)







Section Platform.

(** The time-zone database behind [Intl.DateTimeFormat]: the wall-clock
    hour ([0] to [23]) of an instant, in milliseconds since the epoch, in a
    named zone; [None] for a name that is not a zone, on which the
    constructor throws a [RangeError]. *)
Variable civilHour : string -> Z -> option Z.

(** Whether the formatter prints midnight as [24] (the [h24] hour cycle
    that [hour12: false] selects for [en-US] in some engine versions) or
    as [00]. *)
Variable midnightIs24 : bool.

(** Whether the formatter pads the hour to two digits ([06]) or not ([6]). *)
Variable twoDigitHour : bool.





End Platform.

(** ** The HTTP routes *)

Record IncomingRequest : Type := mkIncoming {
  in_pathname : string;    (* new URL(request.url).pathname *)
  in_method : string
}.

Record HttpResponse : Type := mkHttpResponse {
  out_status : Z;
  out_headers : list (string * string);
  out_body : string
}.

(** [new Response(body, { status, headers: { "content-type":
    "application/json" } })]; the constructor throws a [RangeError] for a
    status outside 200..599. *)
Definition new_Response (body : string) (status : Z) : M HttpResponse :=
  if (200 <=? status) && (status <=? 599) then
    ret {| out_status := status;
           out_headers := [("content-type", "application/json")];
           out_body := body |}
  else
    throw (JsError "RangeError"
             "Responses may only be constructed with status codes in the range 200 to 599, inclusive.").

(** The object [JSON.stringify(result)] serialises. *)
Definition result_value (r : ActionResult) : JsValue :=
  JObj (("ok", JBool (ok r))
        :: match error r with
           | Some msg => [("error", JStr msg)]
           | None => []
           end).

Definition chargeRoute (env : Env) : M HttpResponse :=
  if negb (truthy (env_value (CP_STATION_ID env))) then
    new_Response (JSON_stringify (JObj [("error", JStr "CP_STATION_ID not set")])) 400
  else
    result <- performChargeFlow env false ;;
    new_Response (JSON_stringify (result_value result)) (if ok result then 200 else 500).

Definition chargersRequest (userId sessionToken : JsValue) : Request :=
  {| req_url := HOME_CHARGERS_URL;
     req_method := "POST";
     req_headers := [("content-type", "application/x-www-form-urlencoded")];
     req_body := FormBody [("user_id", ToString userId);
                           ("coulomb_sess", ToString sessionToken)];
     req_redirect := None |}.

(** [x.length] of a truthy value or an array *)
Definition lengthOf (v : JsValue) : JsValue :=
  match v with
  | JArr items => JNum (Z.of_nat (List.length items))
  | JStr s => JNum (Z.of_nat (String.length s))
  | _ => optProp v "length"
  end.

(** [x === 0] *)
Definition isZero (v : JsValue) : bool :=
  match v with
  | JNum z => z =? 0
  | _ => false
  end.

Fixpoint mapM {A B} (f : A -> M B) (l : list A) : M (list B) :=
  match l with
  | [] => ret []
  | x :: rest => y <- f x ;; ys <- mapM f rest ;; ret (y :: ys)
  end.

(** [(c) => ({ station_id: c.station_id, station_name: c.station_name })] *)
Definition chargerEntry (c : JsValue) : M JsValue :=
  sid <- getProp c "station_id" ;;
  sname <- getProp c "station_name" ;;
  ret (JObj [("station_id", sid); ("station_name", sname)]).

(** [chargers.map(...)]: only an array has [map]. *)
Definition chargers_map (chargers : JsValue) : M JsValue :=
  match chargers with
  | JArr items => l <- mapM chargerEntry items ;; ret (JArr l)
  | _ => throw (JsError "TypeError" "chargers.map is not a function")
  end.

Definition optLength (b : option string) : JsValue :=
  match b with
  | Some s => js_or (JNum (Z.of_nat (String.length s))) (JNum 0)
  | None => JNum 0
  end.

(** The end of [/setup], from the response to the charger-list call on. *)
Definition listChargers (chargerRes : Response) : M HttpResponse :=
  chargerJson <- json chargerRes ;;
  data <- getProp chargerJson "data" ;;
  let chargers := js_or data (JArr []) in
  if isZero (lengthOf chargers) then
    new_Response
      (JSON_stringify (JObj [("error", JStr "No home chargers found");
                             ("response", chargerJson)])) 404
  else
    list <- chargers_map chargers ;;
    new_Response (JSON_stringify_2 (JObj [("chargers", list)])) 200.

(** The part of [/setup] after a successful login response. *)
Definition discover (authRes : Response) : M HttpResponse :=
  authJson <- json authRes ;;
  userId <- extractUserId authJson ;;
  sessionToken <- extractSessionToken authJson ;;
  failed <- (if negb (truthy sessionToken) then ret true
             else e <- getProp authJson "error" ;; ret (truthy e)) ;;
  if failed : bool then
    new_Response
      (JSON_stringify (JObj [("error", JStr "Auth failed or missing session token");
                             ("authResponse", authJson)])) 401
  else if negb (truthy userId) then
    new_Response
      (JSON_stringify
         (JObj [("error", JStr ("Could not find user_id in login response. Got: "
                                ++ JSON_stringify authJson))])) 500
  else
    r <- try_catch
           (res <- fetchWithRetry (fetch (chargersRequest userId sessionToken)) ;;
            ret (inr res))
           (fun chargerErr =>
              resp <- new_Response
                        (JSON_stringify
                           (JObj [("error", JStr ("Charger fetch failed: "
                                                  ++ String_of_thrown chargerErr))])) 500 ;;
              ret (inl resp)) ;;
    match r with
    | inl resp => ret resp
    | inr chargerRes => listChargers chargerRes
    end.

Definition setupRoute (env : Env) : M HttpResponse :=
  try_catch
    (r <- try_catch
            (res <- fetchWithRetry (fetch (authRequest env)) ;; ret (inr res))
            (fun authErr =>
               resp <- new_Response
                         (JSON_stringify
                            (JObj [("error", JStr ("Auth fetch failed: "
                                                   ++ String_of_thrown authErr));
                                   ("usernameSet", JBool (truthy (env_value (CP_USERNAME env))));
                                   ("passwordSet", JBool (truthy (env_value (CP_PASSWORD env))));
                                   ("usernameLength", optLength (CP_USERNAME env));
                                   ("passwordLength", optLength (CP_PASSWORD env))])) 500 ;;
               ret (inl resp)) ;;
     match r with
     | inl resp => ret resp
     | inr authRes =>
         if negb (resp_ok authRes) then
           bodyText <- text authRes ;;
           new_Response
             (JSON_stringify
                (JObj [("error", JStr ("Auth returned " ++ string_of_Z (resp_status authRes)));
                       ("status", JNum (resp_status authRes));
                       ("responseBody", JStr (substring 0 500 bodyText))]))
             (resp_status authRes)
         else discover authRes
     end)
    (fun err =>
       new_Response (JSON_stringify (JObj [("error", JStr (String_of_thrown err))])) 500).

(** The [fetch] handler of the worker. *)
Definition fetch_handler (request : IncomingRequest) (env : Env) : M HttpResponse :=
  if String.eqb (in_pathname request) "/charge" && String.eqb (in_method request) "POST"
  then chargeRoute env
  else if String.eqb (in_pathname request) "/setup" && String.eqb (in_method request) "POST"
  then setupRoute env
  else new_Response (JSON_stringify (JObj [("error", JStr "Not found")])) 404.

(** * Properties *)

(** ** Observations on a run *)

(** The answer the network will give to the [k]-th request from now on, if
    that request is [req]. *)
Definition upcoming (w : World) (req : Request) (k : nat) : Outcome :=
  net w (calls w + k)%nat req.

(** An attempt fails on a transport error or a status outside 200..299. *)
Definition failing (o : Outcome) : bool :=
  match o with
  | Responds r => negb (resp_ok r)
  | Rejects _ => true
  end.

(** The most recent response among a list of outcomes, oldest first. *)
Definition lastResponseOf (os : list Outcome) : option Response :=
  fold_left (fun acc o => match o with
                          | Responds r => Some r
                          | Rejects _ => acc
                          end) os None.

Definition isRequestTo (url : string) (e : Event) : bool :=
  match e with
  | EvFetch r => String.eqb (req_url r) url
  | _ => false
  end.

(** How many requests of a run went to [url]. *)
Definition requestsTo (url : string) (ev : list Event) : nat :=
  List.length (filter (isRequestTo url) ev).

(** The alerts of a run: the requests to the mail service. *)
Definition alertsSent (ev : list Event) : nat := requestsTo MAILCHANNELS_URL ev.

(** The backoff waits of a run, in order. *)
Definition waits (ev : list Event) : list Z :=
  flat_map (fun e => match e with EvDelay ms => [ms] | _ => [] end) ev.

(** The requests of a run, counted. *)
Definition attempts (ev : list Event) : nat :=
  List.length (filter (fun e => match e with EvFetch _ => true | _ => false end) ev).

(** The requests of a run that went to the mail service, in order. *)
Definition alertRequests (ev : list Event) : list Request :=
  flat_map (fun e => match e with
                     | EvFetch r =>
                         if String.eqb (req_url r) MAILCHANNELS_URL then [r] else []
                     | _ => []
                     end) ev.

(** The texts the charge flow can return as [error]: a fixed prefix, then
    text taken from the vendor's reply or from the thrown error. *)
Definition authMissingText (userid : JsValue) (hasCoulomb : bool) : string :=
  "Auth missing user_id or session token. Got: "
  ++ JSON_stringify (JObj [("userid", userid); ("hasCoulomb", JBool hasCoulomb)]).

Definition authErrorText (e : JsThrown) : string :=
  "Auth error: " ++ String_of_thrown e.

Definition startFailedText (r : Response) : string :=
  "Start session failed: " ++ string_of_Z (resp_status r) ++ newline ++ resp_text r.

Definition startErrorText (e : JsThrown) : string :=
  "Start session error: " ++ String_of_thrown e.

Definition authFailureText (msg : string) : Prop :=
  (exists userid hasCoulomb, msg = authMissingText userid hasCoulomb)
  \/ (exists e, msg = authErrorText e).

Definition startFailureText (msg : string) : Prop :=
  (exists r, resp_ok r = false /\ msg = startFailedText r)
  \/ (exists e, msg = startErrorText e).

(** A computation that ignores the world: one completion whatever the
    world, which it leaves as it is, and no event. *)
Definition silent {A} (m : M A) : Prop :=
  exists c, forall w, m w = (c, w, []).

(** What [authenticate] leaves behind: no request to the start-session URL;
    on an early return a failure with one of the two auth texts, alerted
    once if alerts are on; otherwise two truthy values and no alert. *)
Definition authenticateDone (env : Env) (sendAlerts : bool)
    (c : ActionResult + JsValue * JsValue) (ev : list Event) : Prop :=
  requestsTo START_SESSION_URL ev = 0%nat
  /\ match c with
     | inl res =>
         exists msg, res = failure msg /\ authFailureText msg
           /\ alertRequests ev
              = (if sendAlerts then [alertRequest env URGENT_SUBJECT msg] else [])
     | inr (userId, sessionToken) =>
         truthy userId = true /\ truthy sessionToken = true /\ alertRequests ev = []
     end.

(** What a whole charge flow leaves behind. *)
Definition flowDone (env : Env) (sendAlerts : bool)
    (res : ActionResult) (ev : list Event) : Prop :=
  if ok res then
    res = {| ok := true; error := None |} /\ alertRequests ev = []
  else
    exists msg,
      res = failure msg
      /\ ((authFailureText msg /\ requestsTo START_SESSION_URL ev = 0%nat)
          \/ startFailureText msg)
      /\ alertRequests ev
         = (if sendAlerts then [alertRequest env URGENT_SUBJECT msg] else []).

(** Two worlds whose networks give the same answer whenever the requests
    put to them are related by [Rq], after the same number of requests. *)
Definition related (Rq : Request -> Request -> Prop) (w1 w2 : World) : Prop :=
  calls w1 = calls w2
  /\ forall i r1 r2, Rq r1 r2 -> net w1 i r1 = net w2 i r2.

(** Two computations that, from related worlds, complete alike and leave
    related worlds. *)
Definition sim (Rq : Request -> Request -> Prop) {A} (m1 m2 : M A) : Prop :=
  forall w1 w2,
    related Rq w1 w2 ->
    result (m1 w1) = result (m2 w2)
    /\ related Rq (world_after (m1 w1)) (world_after (m2 w2)).

(** The same request, and not one to the mail service. *)
Definition sameVendorRequest (r1 r2 : Request) : Prop :=
  r1 = r2 /\ String.eqb (req_url r1) MAILCHANNELS_URL = false.


(** [chargerJson.data || []] when [chargerJson] is not [null] *)
Definition stationsOf (chargerJson : JsValue) : JsValue :=
  js_or (optProp chargerJson "data") (JArr []).

Definition nullish (v : JsValue) : bool :=
  match v with
  | JUndefined | JNull => true
  | _ => false
  end.

(** The completions of [m] that are values satisfy [Q]. *)
Definition returns {A} (Q : A -> Prop) (m : M A) : Prop :=
  forall w a, result (m w) = Normal a -> Q a.

(** A response of the discovery route is never an empty success list. *)
Definition noEmptySuccess (resp : HttpResponse) : Prop :=
  out_status resp = 200 ->
  exists items,
    items <> [] /\ out_body resp = JSON_stringify_2 (JObj [("chargers", JArr items)]).


Definition bodyText (req : Request) : string :=
  match req_body req with
  | TextBody t => t
  | FormBody _ => ""
  end.

(** ** Sample worlds *)

Definition sampleEnv : Env :=
  {| CP_USERNAME := Some "driver@example.com";
     CP_PASSWORD := Some "hunter2";
     CP_STATION_ID := Some "1234567";
     ALERT_EMAIL := Some "owner@example.com";
     TZ_REGION := None |}.

Definition unsetStationEnv : Env :=
  {| CP_USERNAME := Some "driver@example.com";
     CP_PASSWORD := Some "hunter2";
     CP_STATION_ID := None;
     ALERT_EMAIL := Some "owner@example.com";
     TZ_REGION := None |}.


Definition freshWorld (n : nat -> Request -> Outcome) (now : Z) : World :=
  {| net := n; calls := 0; clock := now |}.

Definition transportError : JsThrown := JsError "TypeError" "fetch failed".

(** Every request fails in transport. *)
Definition netDown : nat -> Request -> Outcome :=
  fun _ _ => Rejects transportError.

Definition notJson : JsThrown + JsValue :=
  inl (JsError "SyntaxError" "Unexpected end of JSON input").

Definition jsonResponse (status : Z) (v : JsValue) : Response :=
  {| resp_status := status; resp_text := JSON_stringify v; resp_json := inr v |}.

Definition loginReply : Response :=
  jsonResponse 200 (JObj [("userid", JStr "U"); ("access_token", JStr "T0K3N")]).


Fixpoint formParam (k : string) (params : list (string * string)) : string :=
  match params with
  | [] => ""
  | (k', v) :: rest => if String.eqb k k' then v else formParam k rest
  end.

Definition sentParam (k : string) (req : Request) : string :=
  match req_body req with
  | FormBody params => formParam k params
  | TextBody _ => ""
  end.

(** A vendor that accepts the login and refuses to start the session with a
    message that quotes the session value it was sent; the mail service
    accepts. *)
Definition echoNet : nat -> Request -> Outcome :=
  fun _ req =>
    if String.eqb (req_url req) AUTH_URL then Responds loginReply
    else if String.eqb (req_url req) START_SESSION_URL then
      Responds {| resp_status := 500;
                  resp_text := "invalid session " ++ sentParam "coulomb_sess" req;
                  resp_json := inl (JsError "SyntaxError"
                                      "Unexpected token i in JSON at position 0") |}
    else Responds {| resp_status := 202; resp_text := ""; resp_json := notJson |}.


(** The vendor is down and the mail service accepts. *)
Definition vendorDownMailUp : nat -> Request -> Outcome :=
  fun _ req =>
    if String.eqb (req_url req) MAILCHANNELS_URL
    then Responds {| resp_status := 202; resp_text := ""; resp_json := notJson |}
    else Rejects transportError.


Definition chargeRequest : IncomingRequest :=
  {| in_pathname := "/charge"; in_method := "POST" |}.

Definition setupRequest : IncomingRequest :=
  {| in_pathname := "/setup"; in_method := "POST" |}.

(** A charger-list reply with an empty list. *)
Definition noChargersReply : Response :=
  jsonResponse 200 (JObj [("data", JArr [])]).

(** The vendor accepts the login and lists no charger. *)
Definition emptyGarageNet : nat -> Request -> Outcome :=
  fun _ req =>
    if String.eqb (req_url req) AUTH_URL then Responds loginReply
    else if String.eqb (req_url req) HOME_CHARGERS_URL then Responds noChargersReply
    else Rejects transportError.

(** The start-session reply of a vendor that accepts. *)
Definition acceptedReply : Response :=
  {| resp_status := 200; resp_text := "OK";
     resp_json := inl (JsError "SyntaxError" "Unexpected token O in JSON at position 0") |}.

(** The vendor accepts the login and the start-session call, except that
    the request numbered [lost] fails in transport when it is a
    start-session call. *)
Definition flakyStartNet (lost : nat) : nat -> Request -> Outcome :=
  fun i req =>
    if String.eqb (req_url req) AUTH_URL then Responds loginReply
    else if String.eqb (req_url req) START_SESSION_URL then
      if Nat.eqb i lost then Rejects transportError else Responds acceptedReply
    else Rejects transportError.

(** The vendor refuses every login with status 401 and a body that carries
    an identifier and a token all the same, and accepts the start-session
    call. *)
Definition refusedLoginNet : nat -> Request -> Outcome :=
  fun _ req =>
    if String.eqb (req_url req) AUTH_URL then
      Responds (jsonResponse 401 (JObj [("userid", JStr "U");
                                        ("access_token", JStr "T0K3N")]))
    else if String.eqb (req_url req) START_SESSION_URL then Responds acceptedReply
    else Rejects transportError.

(** The vendor accepts the login and lists two chargers, the first with a
    field the route does not pass on. *)
Definition twoChargersReply : Response :=
  jsonResponse 200
    (JObj [("data",
            JArr [JObj [("station_id", JStr "111"); ("station_name", JStr "Garage");
                        ("model", JStr "CPH50")];
                  JObj [("station_id", JStr "222"); ("station_name", JStr "Driveway")]])]).

Definition twoChargersNet : nat -> Request -> Outcome :=
  fun _ req =>
    if String.eqb (req_url req) AUTH_URL then Responds loginReply
    else if String.eqb (req_url req) HOME_CHARGERS_URL then Responds twoChargersReply
    else Rejects transportError.

(** The vendor accepts the login and lists a charger and a [null]. *)
Definition nullChargerReply : Response :=
  jsonResponse 200
    (JObj [("data", JArr [JObj [("station_id", JStr "111")]; JNull])]).

Definition nullChargerNet : nat -> Request -> Outcome :=
  fun _ req =>
    if String.eqb (req_url req) AUTH_URL then Responds loginReply
    else if String.eqb (req_url req) HOME_CHARGERS_URL then Responds nullChargerReply
    else Rejects transportError.

(** The vendor answers every login with status 403 and a text body. *)
Definition forbiddenNet : nat -> Request -> Outcome :=
  fun _ req =>
    if String.eqb (req_url req) AUTH_URL then
      Responds {| resp_status := 403; resp_text := "Forbidden";
                  resp_json := inl (JsError "SyntaxError"
                                      "Unexpected token F in JSON at position 0") |}
    else Rejects transportError.

(** ** Shapes of runs *)

(** The waits and repeated requests of a call retried [k] times, the first
    wait being the one after attempt [i + 1]. *)
Fixpoint retryTail (req : Request) (i k : nat) : list Event :=
  match k with
  | O => []
  | S k' =>
      EvDelay (BASE_DELAY_MS * 2 ^ Z.of_nat i) :: EvFetch req :: retryTail req (S i) k'
  end.

(** The events of a call that took [k] retries after its first attempt. *)
Definition retryEvents (req : Request) (k : nat) : list Event :=
  EvFetch req :: retryTail req 0 k.

(** The world after [k] more requests and [ms] milliseconds of waiting. *)
Definition worldPlus (w : World) (k : nat) (ms : Z) : World :=
  {| net := net w; calls := (calls w + k)%nat; clock := clock w + ms |}.

(** The time a run spent in backoff waits. *)
Definition waitedMs (ev : list Event) : Z := fold_right Z.add 0 (waits ev).

Definition isLog (e : Event) : bool :=
  match e with
  | EvConsoleError _ => true
  | _ => false
  end.

(** The [console.error] lines of a run, counted. *)
Definition consoleErrors (ev : list Event) : nat := List.length (filter isLog ev).

(** The events of a failure path: one log line, then, with alerts on, the
    alert and at most one more log line for a mail that was not accepted. *)
Definition reportEvents (sendAlerts : bool) (env : Env) (msg : string)
    (ev : list Event) : Prop :=
  exists args log,
    ev = EvConsoleError args
           :: (if sendAlerts
               then EvFetch (alertRequest env URGENT_SUBJECT msg) :: log
               else [])
    /\ (log = [] \/ exists a, log = [EvConsoleError a]).

(** The events of a charge flow: the login call with its retries, then
    either the report of an authentication failure, or the start-session
    call with its retries and, if it failed, which takes all three attempts,
    its report. *)
Definition flowTrace (env : Env) (sendAlerts : bool)
    (res : ActionResult) (ev : list Event) : Prop :=
  exists ka authTail startEv,
    (ka <= 2)%nat
    /\ ev = (retryEvents (authRequest env) ka ++ authTail ++ startEv)%list
    /\ ((exists msg,
            res = failure msg /\ authFailureText msg
            /\ reportEvents sendAlerts env msg authTail /\ startEv = [])
        \/ (authTail = []
            /\ exists userId sessionToken ks startTail,
                 truthy userId = true /\ truthy sessionToken = true
                 /\ (ks <= 2)%nat
                 /\ startEv
                    = (retryEvents (startRequest env userId sessionToken) ks
                         ++ startTail)%list
                 /\ ((res = {| ok := true; error := None |} /\ startTail = [])
                     \/ (exists msg,
                            res = failure msg /\ startFailureText msg /\ ks = 2%nat
                            /\ reportEvents sendAlerts env msg startTail)))).

(** A computation that never sends a request to [url]. *)
Definition avoids (url : string) {A} (m : M A) : Prop :=
  forall w, requestsTo url (events (m w)) = 0%nat.

(** A computation that never throws. *)
Definition safe {A} (m : M A) : Prop :=
  forall w, exists a, result (m w) = Normal a.

(** A response as [new Response] builds it: a status in 200..599 and the
    JSON content type. *)
Definition wellFormed (resp : HttpResponse) : Prop :=
  200 <= out_status resp <= 599
  /\ out_headers resp = [("content-type", "application/json")].

(** [{ station_id: c.station_id, station_name: c.station_name }] for a [c]
    that is not [null] *)
Definition stationEntry (c : JsValue) : JsValue :=
  JObj [("station_id", optProp c "station_id");
        ("station_name", optProp c "station_name")].

(** The discovery route has logged in: the login call ended at world [w1]
    after the events [ev1] with an accepted response whose body yields the
    identifier and the token and has no truthy [error] field. *)
Definition loggedInAt (env : Env) (w : World) (userId sessionToken : JsValue)
    (w1 : World) (ev1 : list Event) : Prop :=
  exists authRes authJson,
    fetchWithRetry (fetch (authRequest env)) w = (Normal authRes, w1, ev1)
    /\ resp_ok authRes = true
    /\ resp_json authRes = inr authJson
    /\ result (extractUserId authJson w1) = Normal userId
    /\ truthy userId = true
    /\ result (extractSessionToken authJson w1) = Normal sessionToken
    /\ truthy sessionToken = true
    /\ truthy (optProp authJson "error") = false.

(** ** The retry loop *)

(** [MAX_ATTEMPTS - attempt] iterations are enough: more fuel gives the same
    run, so [retry_loop] with that much fuel is the [while] loop. *)
Lemma retry_loop_fuel (n : nat) :
  forall fuel requestFn attempt lastError lastResponse w,
    (Z.to_nat (MAX_ATTEMPTS - attempt) <= n)%nat -> (n <= fuel)%nat ->
    retry_loop fuel requestFn attempt lastError lastResponse w
    = retry_loop n requestFn attempt lastError lastResponse w.
Proof.
  induction n as [|n IH]; intros fuel requestFn attempt lastError lastResponse w Hn Hf.
  - destruct fuel as [|fuel]; [reflexivity|].
    simpl. destruct (Z.ltb_spec attempt MAX_ATTEMPTS); [lia | reflexivity].
  - destruct fuel as [|fuel]; [lia|].
    simpl. destruct (Z.ltb_spec attempt MAX_ATTEMPTS); [|reflexivity].
    unfold bind. destruct (attempt_once requestFn lastResponse w) as [[[r|e] w1] ev1];
      [|reflexivity].
    destruct r as [res|[le lr]]; [reflexivity|].
    destruct (attempt + 1 >=? MAX_ATTEMPTS); [reflexivity|].
    destruct (delay _ w1) as [[[[]|e] w2] ev2]; [|reflexivity].
    rewrite (IH fuel); [reflexivity | lia | lia].
Qed.

Lemma fetchWithRetry_fuel (k : nat) (requestFn : M Response) (w : World) :
  retry_loop (Z.to_nat MAX_ATTEMPTS + k) requestFn 0 None None w
  = fetchWithRetry requestFn w.
Proof.
  unfold fetchWithRetry. apply retry_loop_fuel; [reflexivity | lia].
Qed.

(** One iteration on [fetch req], by the outcome the network gives. *)
Lemma attempt_once_fetch req lastResponse w :
  attempt_once (fetch req) lastResponse w
  = (Normal
       match net w (calls w) req with
       | Responds r =>
           if resp_ok r then inl r
           else inr (Some (JsError "Error" ("HTTP " ++ string_of_Z (resp_status r))),
                     Some r)
       | Rejects e => inr (Some e, lastResponse)
       end,
     mkWorld (net w) (S (calls w)) (clock w),
     [EvFetch req]).
Proof.
  unfold attempt_once, try_catch, bind, fetch.
  destruct (net w (calls w) req) as [r|e]; simpl; [|reflexivity].
  destruct (resp_ok r); reflexivity.
Qed.

(** The run of [fetchWithRetry] when the three attempts fail: the events,
    the world it leaves and what [after_loop] makes of the last error and
    the last response. *)
Lemma fetchWithRetry_exhausted req w :
  failing (upcoming w req 0) = true ->
  failing (upcoming w req 1) = true ->
  failing (upcoming w req 2) = true ->
  exists lastError,
    fetchWithRetry (fetch req) w
    = (fst (fst (after_loop (Some lastError)
                   (lastResponseOf [upcoming w req 0; upcoming w req 1; upcoming w req 2])
                   w)),
       mkWorld (net w) (calls w + 3)%nat (clock w + 2000 + 4000),
       [EvFetch req; EvDelay 2000; EvFetch req; EvDelay 4000; EvFetch req])
    /\ lastError
       = match upcoming w req 2 with
         | Responds r => JsError "Error" ("HTTP " ++ string_of_Z (resp_status r))
         | Rejects e => e
         end.
Proof.
  unfold upcoming. rewrite Nat.add_0_r.
  replace (calls w + 1)%nat with (S (calls w)) by lia.
  replace (calls w + 2)%nat with (S (S (calls w))) by lia.
  replace (calls w + 3)%nat with (S (S (S (calls w)))) by lia.
  intros F1 F2 F3.
  destruct (net w (calls w) req) as [r1|e1] eqn:E1;
    destruct (net w (S (calls w)) req) as [r2|e2] eqn:E2;
    destruct (net w (S (S (calls w))) req) as [r3|e3] eqn:E3;
    simpl in F1, F2, F3;
    repeat match goal with
           | H : negb (resp_ok ?r) = true |- _ => apply negb_true_iff in H
           end;
    unfold fetchWithRetry, lastResponseOf; simpl retry_loop; unfold bind;
    rewrite attempt_once_fetch, E1; rewrite ?F1; simpl;
    rewrite attempt_once_fetch; simpl; rewrite E2; rewrite ?F2; simpl;
    rewrite attempt_once_fetch; simpl; rewrite E3; rewrite ?F3;
    simpl; eexists; split; reflexivity.
Qed.

(** [C1] When each of the three attempts of a call fails (a transport error
    or a status outside 200..299), [fetchWithRetry] sends the request exactly
    three times and waits exactly twice: 2000 ms before the second attempt,
    4000 ms before the third, and not after the last. *)
Theorem fetchWithRetry_three_attempts_two_waits req w :
  failing (upcoming w req 0) = true ->
  failing (upcoming w req 1) = true ->
  failing (upcoming w req 2) = true ->
  events (fetchWithRetry (fetch req) w)
  = [EvFetch req; EvDelay 2000; EvFetch req; EvDelay 4000; EvFetch req]
  /\ attempts (events (fetchWithRetry (fetch req) w)) = 3%nat
  /\ waits (events (fetchWithRetry (fetch req) w)) = [2000; 4000]
  /\ calls (world_after (fetchWithRetry (fetch req) w)) = (calls w + 3)%nat.
Proof.
  intros F1 F2 F3.
  destruct (fetchWithRetry_exhausted req w F1 F2 F3) as (le & E & _).
  rewrite E. repeat split.
Qed.

(** ** Computations that touch neither the network nor the log *)

Lemma silent_ret {A} (a : A) : silent (ret a).
Proof. now exists (Normal a). Qed.

Lemma silent_throw {A} (e : JsThrown) : silent (@throw A e).
Proof. now exists (Throw e). Qed.

Lemma silent_bind {A B} (m : M A) (k : A -> M B) :
  silent m -> (forall a, silent (k a)) -> silent (bind m k).
Proof.
  intros [c Hc] Hk. destruct c as [a|e].
  - destruct (Hk a) as [c' Hc']. exists c'. intros w.
    unfold bind. now rewrite Hc, Hc'.
  - exists (Throw e). intros w. unfold bind. now rewrite Hc.
Qed.

Lemma silent_getProp v k : silent (getProp v k).
Proof. destruct v; simpl; auto using silent_ret, silent_throw. Qed.

Lemma silent_orElse a b : silent a -> silent b -> silent (a ||| b).
Proof.
  intros Ha Hb. apply silent_bind; [assumption|].
  intros x. destruct (truthy x); auto using silent_ret.
Qed.

Lemma silent_json r : silent (json r).
Proof. unfold json. destruct (resp_json r); auto using silent_ret, silent_throw. Qed.

Lemma silent_after_loop le lr : silent (after_loop le lr).
Proof.
  unfold after_loop. destruct lr; [apply silent_ret|].
  destruct le; apply silent_throw.
Qed.

Create HintDb silent.

#[local] Hint Resolve silent_ret silent_throw silent_getProp silent_orElse
  silent_json silent_after_loop : silent.

Ltac silent_steps :=
  repeat (first [ apply silent_orElse | apply silent_bind; [|intros ?]
                | solve [auto with silent] ]).

Lemma silent_extractUserId authJson : silent (extractUserId authJson).
Proof. unfold extractUserId. silent_steps. Qed.

Lemma silent_extractSessionToken authJson : silent (extractSessionToken authJson).
Proof. unfold extractSessionToken. silent_steps. Qed.

Lemma silent_run {A} (m : M A) :
  silent m -> forall w, m w = (result (m w), w, []).
Proof. intros [c E] w. now rewrite E. Qed.

(** The completion of a silent computation is the same in every world. *)
Lemma silent_result {A} (m : M A) :
  silent m -> forall w1 w2, result (m w1) = result (m w2).
Proof. intros [c E] w1 w2. now rewrite !E. Qed.

(** Step over a silent computation at the head of a [bind]. *)
Ltac silently L w :=
  unfold bind at 1;
  let c := fresh "c" in
  let E := fresh "E" in
  destruct L as [c E]; rewrite (E w); clear E;
  destruct c as [?|?]; cbv beta iota.

(** ** Counting requests *)

Lemma requestsTo_app url a b :
  requestsTo url (a ++ b) = (requestsTo url a + requestsTo url b)%nat.
Proof. unfold requestsTo. now rewrite filter_app, length_app. Qed.

Lemma requestsTo_fetch url req :
  requestsTo url [EvFetch req] = if String.eqb (req_url req) url then 1%nat else 0%nat.
Proof. unfold requestsTo. simpl. now destruct (String.eqb (req_url req) url). Qed.

(** The retry loop sends nothing but the request it was given. *)
Lemma retry_loop_requests url req :
  String.eqb (req_url req) url = false ->
  forall fuel attempt le lr w,
    requestsTo url (events (retry_loop fuel (fetch req) attempt le lr w)) = 0%nat.
Proof.
  intros Hurl. induction fuel as [|fuel IH]; intros attempt le lr w.
  - simpl. now rewrite (silent_run (silent_after_loop le lr) w).
  - simpl. destruct (attempt <? MAX_ATTEMPTS).
    2: now rewrite (silent_run (silent_after_loop le lr) w).
    unfold bind. rewrite attempt_once_fetch.
    set (w1 := mkWorld (net w) (S (calls w)) (clock w)).
    destruct (match net w (calls w) req with
              | Responds r => _
              | Rejects e => _
              end) as [res|[le' lr']].
    + simpl. rewrite requestsTo_fetch, Hurl. reflexivity.
    + destruct (attempt + 1 >=? MAX_ATTEMPTS).
      * rewrite (silent_run (silent_after_loop le' lr') w1). simpl.
        rewrite requestsTo_fetch, Hurl. reflexivity.
      * unfold delay at 1. cbv beta iota.
        match goal with
        | |- context [retry_loop fuel (fetch req) ?a ?e ?r ?w'] =>
            specialize (IH a e r w');
            destruct (retry_loop fuel (fetch req) a e r w') as [[c w2] ev2]
        end.
        unfold events in *. cbn [snd] in *.
        rewrite !requestsTo_app, requestsTo_fetch, Hurl, IH. reflexivity.
Qed.

Lemma fetchWithRetry_requests url req w :
  String.eqb (req_url req) url = false ->
  requestsTo url (events (fetchWithRetry (fetch req) w)) = 0%nat.
Proof. intros H. now apply retry_loop_requests. Qed.

(** The first thing [fetchWithRetry] does is send the request. *)
Lemma fetchWithRetry_first req w :
  exists ev, events (fetchWithRetry (fetch req) w) = EvFetch req :: ev.
Proof.
  unfold fetchWithRetry. simpl retry_loop. unfold bind.
  rewrite attempt_once_fetch.
  destruct (match net w (calls w) req with
            | Responds r => _
            | Rejects e => _
            end) as [res|[le' lr']]; cbv beta iota.
  - unfold ret, events. simpl. eauto.
  - match goal with
    | |- context [let (_, _) := ?X in _] => destruct X as [[c w2] ev2]
    end.
    unfold events. simpl. eauto.
Qed.

Lemma requestsTo_nil url : requestsTo url [] = 0%nat.
Proof. reflexivity. Qed.

Lemma requestsTo_log url args : requestsTo url [EvConsoleError args] = 0%nat.
Proof. reflexivity. Qed.

Lemma alertRequests_app a b : alertRequests (a ++ b) = (alertRequests a ++ alertRequests b)%list.
Proof. unfold alertRequests. apply flat_map_app. Qed.

Lemma alertRequests_none ev :
  requestsTo MAILCHANNELS_URL ev = 0%nat -> alertRequests ev = [].
Proof.
  unfold requestsTo. induction ev as [|e ev IH]; [reflexivity|].
  simpl. destruct e as [r| |]; simpl; auto.
  destruct (String.eqb (req_url r) MAILCHANNELS_URL); simpl; [discriminate | auto].
Qed.

Lemma alertsSent_length ev : alertsSent ev = List.length (alertRequests ev).
Proof.
  unfold alertsSent, requestsTo. induction ev as [|e ev IH]; [reflexivity|].
  simpl. destruct e as [r| |]; simpl; auto.
  destruct (String.eqb (req_url r) MAILCHANNELS_URL); simpl; auto.
Qed.

(** ** The alert *)

(** [sendAlert] sends one request to the mail service, logs at most one
    line, and completes normally whatever the answer. *)
Lemma sendAlert_run env subject body w :
  exists log,
    sendAlert env subject body w
    = (Normal tt, mkWorld (net w) (S (calls w)) (clock w),
       EvFetch (alertRequest env subject body) :: log)
    /\ (log = [] \/ exists args, log = [EvConsoleError args]).
Proof.
  unfold sendAlert, try_catch, bind, fetch.
  destruct (net w (calls w) (alertRequest env subject body)) as [r|e].
  - destruct (resp_ok r); simpl; eexists; split; try reflexivity; eauto.
  - simpl. eexists; split; try reflexivity; eauto.
Qed.

Lemma alertIf_run sendAlerts env msg w :
  exists w' ev,
    alertIf sendAlerts env msg w = (Normal tt, w', ev)
    /\ net w' = net w
    /\ alertRequests ev
       = (if sendAlerts then [alertRequest env URGENT_SUBJECT msg] else [])
    /\ requestsTo START_SESSION_URL ev = 0%nat.
Proof.
  unfold alertIf. destruct sendAlerts.
  - destruct (sendAlert_run env URGENT_SUBJECT msg w) as (log & -> & Hlog).
    do 2 eexists. split; [reflexivity|]. split; [reflexivity|].
    destruct Hlog as [->|[args ->]]; split; reflexivity.
  - exists w, []. repeat split.
Qed.

(** The end of every failure path: log, alert if asked, return. *)
Lemma report_run {A} args sendAlerts env msg (v : A) w :
  exists w' ev,
    (console_error args ;;; alertIf sendAlerts env msg ;;; ret v) w = (Normal v, w', ev)
    /\ net w' = net w
    /\ alertRequests ev
       = (if sendAlerts then [alertRequest env URGENT_SUBJECT msg] else [])
    /\ requestsTo START_SESSION_URL ev = 0%nat.
Proof.
  unfold bind, console_error, ret.
  destruct (alertIf_run sendAlerts env msg w) as (w' & ev & -> & Hnet & Hal & Hst).
  exists w', ([EvConsoleError args] ++ (ev ++ []))%list.
  split; [reflexivity|]. split; [assumption|].
  rewrite app_nil_r. split.
  - rewrite alertRequests_app. simpl. assumption.
  - rewrite requestsTo_app, Hst. reflexivity.
Qed.


(** ** The charge flow, step by step *)

Lemma authenticate_spec env sendAlerts w :
  exists c w' ev,
    authenticate env sendAlerts w = (Normal c, w', ev)
    /\ authenticateDone env sendAlerts c ev.
Proof.
  pose proof (fetchWithRetry_requests MAILCHANNELS_URL (authRequest env) w eq_refl) as HM.
  pose proof (fetchWithRetry_requests START_SESSION_URL (authRequest env) w eq_refl) as HS.
  unfold authenticate, try_catch. unfold bind at 1.
  destruct (fetchWithRetry (fetch (authRequest env)) w) as [[c1 w1] ev1].
  unfold events in HM, HS; cbn [snd] in HM, HS.
  apply alertRequests_none in HM.
  assert (Hfail : forall e,
    exists c w' ev,
      (let (p0, ev2) :=
           (console_error [authErrorText e] ;;;
            alertIf sendAlerts env (authErrorText e) ;;;
            ret (inl (failure (authErrorText e)))) w1 in
         let (c1, w2) := p0 in (c1, w2, (ev1 ++ ev2)%list))
      = (Normal c, w', ev)
    /\ authenticateDone env sendAlerts c ev).
  { intros e.
    destruct (report_run [authErrorText e] sendAlerts env (authErrorText e)
                (@inl ActionResult (JsValue * JsValue) (failure (authErrorText e))) w1)
      as (w' & ev & -> & _ & Hal & Hst).
    do 3 eexists. split; [reflexivity|]. split.
    - now rewrite requestsTo_app, HS, Hst.
    - eexists. split; [reflexivity|]. split.
      + right. now exists e.
      + now rewrite alertRequests_app, HM, Hal. }
  destruct c1 as [authRes|e]; [|apply Hfail].
  silently (silent_json authRes) w1; [|rewrite app_nil_r; apply Hfail].
  rename a into authJson.
  silently (silent_extractUserId authJson) w1; [|rewrite app_nil_r; apply Hfail].
  rename a into userId.
  silently (silent_extractSessionToken authJson) w1; [|rewrite app_nil_r; apply Hfail].
  rename a into sessionToken.
  destruct (negb (truthy userId) || negb (truthy sessionToken)) eqn:Hempty.
  - silently (silent_getProp authJson "userid") w1; [|rewrite app_nil_r; apply Hfail].
    rename a into userid.
    silently (silent_getProp authJson "sessionStorage") w1;
      [|rewrite app_nil_r; apply Hfail].
    rename a into ss.
    match goal with
    | |- context [(console_error ?args ;;; alertIf _ _ ?msg ;;; ret ?v) w1] =>
        destruct (report_run args sendAlerts env msg v w1)
          as (w' & ev & -> & _ & Hal & Hst)
    end.
    do 3 eexists. split; [reflexivity|]. cbn [app]. split.
    + now rewrite requestsTo_app, HS, Hst.
    + eexists. split; [reflexivity|]. split.
      * left. now exists userid, (truthy (optProp ss "coulomb_sess")).
      * now rewrite alertRequests_app, HM, Hal.
  - apply orb_false_iff in Hempty. destruct Hempty as [Hu Ht].
    apply negb_false_iff in Hu, Ht.
    unfold ret. do 3 eexists. split; [reflexivity|]. rewrite app_nil_r.
    repeat split; assumption.
Qed.

Lemma startSession_spec env sendAlerts userId sessionToken w :
  exists res w' ev,
    startSession env sendAlerts userId sessionToken w = (Normal res, w', ev)
    /\ if ok res then
         res = {| ok := true; error := None |} /\ alertRequests ev = []
       else
         exists msg,
           res = failure msg /\ startFailureText msg
           /\ alertRequests ev
              = (if sendAlerts then [alertRequest env URGENT_SUBJECT msg] else []).
Proof.
  pose proof (fetchWithRetry_requests MAILCHANNELS_URL
                (startRequest env userId sessionToken) w eq_refl) as HM.
  unfold startSession, try_catch. unfold bind at 1.
  destruct (fetchWithRetry (fetch (startRequest env userId sessionToken)) w)
    as [[c1 w1] ev1].
  unfold events in HM; cbn [snd] in HM.
  apply alertRequests_none in HM.
  destruct c1 as [startRes|e].
  - destruct (resp_ok startRes) eqn:Hok; cbn [negb].
    + unfold ret. do 3 eexists. split; [reflexivity|]. simpl.
      rewrite app_nil_r. split; [reflexivity | assumption].
    + unfold text. unfold bind at 1, ret at 1.
      match goal with
      | |- context [(console_error ?args ;;; alertIf _ _ ?msg ;;; ret ?v) w1] =>
          destruct (report_run args sendAlerts env msg v w1)
            as (w' & ev & -> & _ & Hal & Hst)
      end.
      do 3 eexists. split; [reflexivity|]. cbn [app ok failure].
      eexists. split; [reflexivity|]. split.
      * left. now exists startRes.
      * now rewrite alertRequests_app, HM, Hal.
  - match goal with
    | |- context [(console_error ?args ;;; alertIf _ _ ?msg ;;; ret ?v) w1] =>
        destruct (report_run args sendAlerts env msg v w1)
          as (w' & ev & -> & _ & Hal & Hst)
    end.
    do 3 eexists. split; [reflexivity|]. cbn [ok failure].
    eexists. split; [reflexivity|]. split.
    + right. now exists e.
    + now rewrite alertRequests_app, HM, Hal.
Qed.

(** The charge flow never throws; it returns a result that tells what it
    did. *)
Lemma performChargeFlow_spec env sendAlerts w :
  exists res w' ev,
    performChargeFlow env sendAlerts w = (Normal res, w', ev)
    /\ flowDone env sendAlerts res ev.
Proof.
  unfold performChargeFlow, bind.
  destruct (authenticate_spec env sendAlerts w) as (c & w1 & ev1 & -> & Hst & Hc).
  destruct c as [res|[userId sessionToken]].
  - destruct Hc as (msg & -> & Htext & Hal).
    unfold ret. do 3 eexists. split; [reflexivity|].
    unfold flowDone. cbn [ok failure]. rewrite app_nil_r.
    exists msg. auto.
  - destruct Hc as (_ & _ & Hal).
    destruct (startSession_spec env sendAlerts userId sessionToken w1)
      as (res & w2 & ev2 & -> & Hres).
    do 3 eexists. split; [reflexivity|].
    unfold flowDone. rewrite alertRequests_app, Hal. cbn [app].
    destruct (ok res).
    + assumption.
    + destruct Hres as (msg & -> & Htext & Hal2). exists msg. auto.
Qed.


(** ** Runs that see the same vendor answers *)

Section Simulation.

Variable Rq : Request -> Request -> Prop.

Lemma sim_ret {A} (a : A) : sim Rq (ret a) (ret a).
Proof. intros w1 w2 H. split; [reflexivity | exact H]. Qed.

Lemma sim_throw {A} (e : JsThrown) : sim Rq (@throw A e) (@throw A e).
Proof. intros w1 w2 H. split; [reflexivity | exact H]. Qed.

Lemma sim_bind {A B} (m1 m2 : M A) (k1 k2 : A -> M B) :
  sim Rq m1 m2 -> (forall a, sim Rq (k1 a) (k2 a)) -> sim Rq (bind m1 k1) (bind m2 k2).
Proof.
  intros Hm Hk w1 w2 H. unfold bind.
  specialize (Hm w1 w2 H).
  destruct (m1 w1) as [[c1 w1'] ev1], (m2 w2) as [[c2 w2'] ev2].
  unfold result, world_after in Hm. cbn [fst snd] in Hm. destruct Hm as [<- H'].
  destruct c1 as [a|e]; [|split; [reflexivity | exact H']].
  specialize (Hk a w1' w2' H').
  destruct (k1 a w1') as [[c1 w1''] ev1'], (k2 a w2') as [[c2 w2''] ev2'].
  exact Hk.
Qed.

Lemma sim_try_catch {A} (m1 m2 : M A) (h1 h2 : JsThrown -> M A) :
  sim Rq m1 m2 -> (forall e, sim Rq (h1 e) (h2 e)) ->
  sim Rq (try_catch m1 h1) (try_catch m2 h2).
Proof.
  intros Hm Hh w1 w2 H. unfold try_catch.
  specialize (Hm w1 w2 H).
  destruct (m1 w1) as [[c1 w1'] ev1], (m2 w2) as [[c2 w2'] ev2].
  unfold result, world_after in Hm. cbn [fst snd] in Hm. destruct Hm as [<- H'].
  destruct c1 as [a|e]; [split; [reflexivity | exact H']|].
  specialize (Hh e w1' w2' H').
  destruct (h1 e w1') as [[c1 w1''] ev1'], (h2 e w2') as [[c2 w2''] ev2'].
  exact Hh.
Qed.

Lemma sim_fetch r1 r2 : Rq r1 r2 -> sim Rq (fetch r1) (fetch r2).
Proof.
  intros Hr w1 w2 [Hc Hn]. unfold fetch.
  rewrite <- Hc, (Hn (calls w1) r1 r2 Hr).
  destruct (net w2 (calls w1) r2); (split; [reflexivity|]);
    (split; [simpl; congruence | exact Hn]).
Qed.

Lemma sim_delay ms1 ms2 : sim Rq (delay ms1) (delay ms2).
Proof. intros w1 w2 [Hc Hn]. split; [reflexivity|]. split; assumption. Qed.

Lemma sim_console_error a1 a2 : sim Rq (console_error a1) (console_error a2).
Proof. intros w1 w2 H. split; [reflexivity | exact H]. Qed.

Lemma sim_silent {A} (m : M A) : silent m -> sim Rq m m.
Proof.
  intros [c E] w1 w2 H. rewrite !E. split; [reflexivity | exact H].
Qed.

(** The alert completes normally and uses up one request, whatever the mail
    service answers. *)
Lemma sim_sendAlert env1 env2 s1 s2 b1 b2 :
  sim Rq (sendAlert env1 s1 b1) (sendAlert env2 s2 b2).
Proof.
  intros w1 w2 [Hc Hn].
  destruct (sendAlert_run env1 s1 b1 w1) as (l1 & -> & _).
  destruct (sendAlert_run env2 s2 b2 w2) as (l2 & -> & _).
  split; [reflexivity|]. split; [simpl; congruence | exact Hn].
Qed.

Lemma sim_alertIf sendAlerts env1 env2 m1 m2 :
  sim Rq (alertIf sendAlerts env1 m1) (alertIf sendAlerts env2 m2).
Proof.
  unfold alertIf. destruct sendAlerts; [apply sim_sendAlert | apply sim_ret].
Qed.

Lemma sim_attempt_once r1 r2 lastResponse :
  Rq r1 r2 -> sim Rq (attempt_once (fetch r1) lastResponse)
                     (attempt_once (fetch r2) lastResponse).
Proof.
  intros Hr. unfold attempt_once. apply sim_try_catch.
  - apply sim_bind; [now apply sim_fetch|].
    intros res. destruct (resp_ok res); apply sim_ret.
  - intros e. apply sim_ret.
Qed.

Lemma sim_retry_loop r1 r2 :
  Rq r1 r2 ->
  forall fuel attempt le lr,
    sim Rq (retry_loop fuel (fetch r1) attempt le lr)
           (retry_loop fuel (fetch r2) attempt le lr).
Proof.
  intros Hr. induction fuel as [|fuel IH]; intros attempt le lr; simpl.
  - apply sim_silent, silent_after_loop.
  - destruct (attempt <? MAX_ATTEMPTS); [|apply sim_silent, silent_after_loop].
    apply sim_bind; [now apply sim_attempt_once|].
    intros [res|[le' lr']]; [apply sim_ret|].
    destruct (attempt + 1 >=? MAX_ATTEMPTS); [apply sim_silent, silent_after_loop|].
    apply sim_bind; [apply sim_delay | intros _; apply IH].
Qed.

Lemma sim_fetchWithRetry r1 r2 :
  Rq r1 r2 -> sim Rq (fetchWithRetry (fetch r1)) (fetchWithRetry (fetch r2)).
Proof. intros Hr. now apply sim_retry_loop. Qed.

Lemma sim_report {A} a1 a2 sendAlerts env1 env2 m1 m2 (v : A) :
  sim Rq (console_error a1 ;;; alertIf sendAlerts env1 m1 ;;; ret v)
         (console_error a2 ;;; alertIf sendAlerts env2 m2 ;;; ret v).
Proof.
  apply sim_bind; [apply sim_console_error | intros _].
  apply sim_bind; [apply sim_alertIf | intros _; apply sim_ret].
Qed.

Lemma sim_authenticate env1 env2 sendAlerts :
  Rq (authRequest env1) (authRequest env2) ->
  sim Rq (authenticate env1 sendAlerts) (authenticate env2 sendAlerts).
Proof.
  intros Hr. unfold authenticate.
  apply sim_try_catch; [|intros e; apply sim_report].
  apply sim_bind; [now apply sim_fetchWithRetry | intros authRes].
  apply sim_bind; [apply sim_silent, silent_json | intros authJson].
  apply sim_bind; [apply sim_silent, silent_extractUserId | intros userId].
  apply sim_bind; [apply sim_silent, silent_extractSessionToken | intros sessionToken].
  destruct (negb (truthy userId) || negb (truthy sessionToken)); [|apply sim_ret].
  apply sim_bind; [apply sim_silent, silent_getProp | intros userid].
  apply sim_bind; [apply sim_silent, silent_getProp | intros ss].
  apply sim_report.
Qed.

Lemma sim_startSession env1 env2 sendAlerts userId sessionToken :
  Rq (startRequest env1 userId sessionToken) (startRequest env2 userId sessionToken) ->
  sim Rq (startSession env1 sendAlerts userId sessionToken)
         (startSession env2 sendAlerts userId sessionToken).
Proof.
  intros Hr. unfold startSession.
  apply sim_try_catch; [|intros e; apply sim_report].
  apply sim_bind; [now apply sim_fetchWithRetry | intros startRes].
  destruct (negb (resp_ok startRes)); [|apply sim_ret].
  apply sim_bind; [apply sim_silent, silent_ret | intros body].
  apply sim_report.
Qed.

Lemma sim_performChargeFlow env1 env2 sendAlerts :
  Rq (authRequest env1) (authRequest env2) ->
  (forall userId sessionToken,
      Rq (startRequest env1 userId sessionToken) (startRequest env2 userId sessionToken)) ->
  sim Rq (performChargeFlow env1 sendAlerts) (performChargeFlow env2 sendAlerts).
Proof.
  intros Ha Hs. unfold performChargeFlow.
  apply sim_bind; [now apply sim_authenticate|].
  intros [res|[userId sessionToken]]; [apply sim_ret|].
  apply sim_startSession, Hs.
Qed.

End Simulation.


(** ** Exhausted retries *)

Lemma fetchWithRetry_three_attempts_two_waits_witness :
  events (fetchWithRetry (fetch (authRequest sampleEnv)) (freshWorld netDown 0))
  = [EvFetch (authRequest sampleEnv); EvDelay 2000;
     EvFetch (authRequest sampleEnv); EvDelay 4000;
     EvFetch (authRequest sampleEnv)]
  /\ attempts (events (fetchWithRetry (fetch (authRequest sampleEnv))
                         (freshWorld netDown 0))) = 3%nat
  /\ waits (events (fetchWithRetry (fetch (authRequest sampleEnv))
                      (freshWorld netDown 0))) = [2000; 4000]
  /\ calls (world_after (fetchWithRetry (fetch (authRequest sampleEnv))
                           (freshWorld netDown 0))) = 3%nat.
Proof.
  apply (fetchWithRetry_three_attempts_two_waits
           (authRequest sampleEnv) (freshWorld netDown 0)); reflexivity.
Defined.

(** [C4] When the three attempts fail: if a response was received, the most
    recent response is what [fetchWithRetry] returns; if every attempt was a
    transport error, it throws the most recent error (the error itself when
    it is an [Error] instance, as a rejection of [fetch] is; otherwise an
    [Error] made of its text). *)
Theorem fetchWithRetry_last_response_or_error req w :
  failing (upcoming w req 0) = true ->
  failing (upcoming w req 1) = true ->
  failing (upcoming w req 2) = true ->
  match lastResponseOf [upcoming w req 0; upcoming w req 1; upcoming w req 2] with
  | Some r => result (fetchWithRetry (fetch req) w) = Normal r
  | None =>
      exists e1 e2 e3,
        upcoming w req 0 = Rejects e1 /\ upcoming w req 1 = Rejects e2
        /\ upcoming w req 2 = Rejects e3
        /\ result (fetchWithRetry (fetch req) w)
           = Throw (if instanceofError e3 then e3
                    else JsError "Error" (String_of_thrown e3))
  end.
Proof.
  intros F1 F2 F3.
  destruct (fetchWithRetry_exhausted req w F1 F2 F3) as (le & E & Hle).
  rewrite E. unfold result. cbn [fst].
  destruct (lastResponseOf _) as [r|] eqn:Hlast; [reflexivity|].
  unfold lastResponseOf in Hlast. simpl in Hlast.
  destruct (upcoming w req 0) as [r1|e1], (upcoming w req 1) as [r2|e2],
    (upcoming w req 2) as [r3|e3]; try discriminate.
  exists e1, e2, e3. subst le. repeat split.
Qed.

Lemma fetchWithRetry_last_response_or_error_witness :
  result (fetchWithRetry (fetch (authRequest sampleEnv)) (freshWorld netDown 0))
  = Throw transportError.
Proof.
  pose proof (fetchWithRetry_last_response_or_error
                (authRequest sampleEnv) (freshWorld netDown 0)
                eq_refl eq_refl eq_refl) as H.
  cbv beta iota delta [lastResponseOf upcoming freshWorld netDown fold_left net calls
                       Nat.add] in H.
  destruct H as (e1 & e2 & e3 & _ & _ & H3 & H).
  injection H3 as <-. exact H.
Defined.


(** ** Alerts and error texts of the charge flow *)

(** [C2], as the code has it: a failed charge flow sends exactly one alert
    when alerts are on (the scheduled path), whichever step failed,
    authentication or start-session; it sends none when alerts are off (the
    [/charge] route) and none when it succeeds.  The retry loop itself never
    alerts: no attempt of [fetchWithRetry] on a vendor request reaches the
    mail service. *)
Theorem one_alert_per_failed_flow env sendAlerts w :
  (exists res,
      result (performChargeFlow env sendAlerts w) = Normal res
      /\ alertsSent (events (performChargeFlow env sendAlerts w))
         = if ok res then 0%nat else if sendAlerts then 1%nat else 0%nat)
  /\ alertsSent (events (fetchWithRetry (fetch (authRequest env)) w)) = 0%nat
  /\ forall userId sessionToken w1,
       alertsSent (events (fetchWithRetry
                             (fetch (startRequest env userId sessionToken)) w1)) = 0%nat.
Proof.
  split; [|split].
  - destruct (performChargeFlow_spec env sendAlerts w) as (res & w' & ev & E & Hdone).
    exists res. rewrite E. split; [reflexivity|].
    unfold events. cbn [snd]. rewrite alertsSent_length.
    unfold flowDone in Hdone. destruct (ok res).
    + destruct Hdone as [_ ->]. reflexivity.
    + destruct Hdone as (msg & _ & _ & ->). now destruct sendAlerts.
  - now apply fetchWithRetry_requests.
  - intros. now apply fetchWithRetry_requests.
Qed.

(** [C2] fails as stated.  With the vendor down, the scheduled flow fails in
    authentication, never reaches the start-session call, and still sends
    its one alert.  On the [/charge] route, where alerts are off, a flow whose
    start-session call is refused three times fails and sends no alert. *)
Lemma alert_on_auth_failure :
  result (performChargeFlow sampleEnv true (freshWorld netDown 0))
  = Normal (failure "Auth error: TypeError: fetch failed")
  /\ requestsTo START_SESSION_URL
       (events (performChargeFlow sampleEnv true (freshWorld netDown 0))) = 0%nat
  /\ alertsSent (events (performChargeFlow sampleEnv true (freshWorld netDown 0))) = 1%nat
  /\ result (performChargeFlow sampleEnv false (freshWorld echoNet 0))
     = Normal (failure ("Start session failed: 500" ++ newline ++ "invalid session T0K3N"))
  /\ requestsTo START_SESSION_URL
       (events (performChargeFlow sampleEnv false (freshWorld echoNet 0))) = 3%nat
  /\ alertsSent (events (performChargeFlow sampleEnv false (freshWorld echoNet 0))) = 0%nat.
Proof. repeat split; vm_compute; reflexivity. Qed.







(** [C7] Whatever the mail service does with the alert (accepts it, answers
    with an error status, fails in transport), [sendAlert] completes
    normally, and the result of the charge flow is the same: two networks
    that differ only in how they answer requests to the mail service give
    the same [ActionResult]. *)
Theorem alert_outcome_never_surfaces env sendAlerts subject body w1 w2 :
  related sameVendorRequest w1 w2 ->
  (exists w' ev, sendAlert env subject body w1 = (Normal tt, w', ev))
  /\ (exists res,
         result (performChargeFlow env sendAlerts w1) = Normal res
         /\ result (performChargeFlow env sendAlerts w2) = Normal res).
Proof.
  intros Hrel. split.
  - destruct (sendAlert_run env subject body w1) as (log & -> & _). eauto.
  - destruct (performChargeFlow_spec env sendAlerts w1) as (res & w' & ev & E & _).
    exists res.
    assert (Hsim : sim sameVendorRequest (performChargeFlow env sendAlerts)
                     (performChargeFlow env sendAlerts)).
    { apply sim_performChargeFlow; [|intros userId sessionToken]; split; reflexivity. }
    destruct (Hsim w1 w2 Hrel) as [<- _]. rewrite E. split; reflexivity.
Qed.

Lemma alert_outcome_never_surfaces_witness :
  (exists w' ev,
      sendAlert sampleEnv URGENT_SUBJECT "Auth error: TypeError: fetch failed"
        (freshWorld netDown 0) = (Normal tt, w', ev))
  /\ (exists res,
         result (performChargeFlow sampleEnv true (freshWorld netDown 0)) = Normal res
         /\ result (performChargeFlow sampleEnv true (freshWorld vendorDownMailUp 0))
            = Normal res).
Proof.
  apply (@alert_outcome_never_surfaces sampleEnv true URGENT_SUBJECT
           "Auth error: TypeError: fetch failed"
           (freshWorld netDown 0) (freshWorld vendorDownMailUp 0)).
  split; [reflexivity|].
  intros i r1 r2 [<- Hurl]. unfold freshWorld, vendorDownMailUp, netDown. simpl.
  rewrite Hurl. reflexivity.
Defined.



(** ** The on-demand route *)

Lemma charge_dispatch request env :
  in_pathname request = "/charge" -> in_method request = "POST" ->
  fetch_handler request env = chargeRoute env.
Proof. intros Hp Hm. unfold fetch_handler. rewrite Hp, Hm. reflexivity. Qed.



(** [C10] A [POST] to [/charge] with the station identifier unset or empty
    is answered with status 400 and an error body, and nothing else
    happens: no request is sent, nothing is logged, the world is as it
    was. *)
Theorem charge_route_requires_station request env w :
  in_pathname request = "/charge" ->
  in_method request = "POST" ->
  CP_STATION_ID env = None \/ CP_STATION_ID env = Some "" ->
  fetch_handler request env w
  = (Normal {| out_status := 400;
               out_headers := [("content-type", "application/json")];
               out_body := JSON_stringify (JObj [("error", JStr "CP_STATION_ID not set")]) |},
     w, []).
Proof.
  intros Hp Hm Hst. rewrite (charge_dispatch request env Hp Hm).
  unfold chargeRoute. destruct Hst as [-> | ->]; reflexivity.
Qed.

Lemma charge_route_requires_station_witness :
  fetch_handler chargeRequest unsetStationEnv (freshWorld netDown 0)
  = (Normal {| out_status := 400;
               out_headers := [("content-type", "application/json")];
               out_body := JSON_stringify (JObj [("error", JStr "CP_STATION_ID not set")]) |},
     freshWorld netDown 0, []).
Proof.
  apply (@charge_route_requires_station chargeRequest unsetStationEnv (freshWorld netDown 0));
    try reflexivity.
  left. reflexivity.
Defined.


(** ** The scheduled gate *)


Lemma events_bind_prefix {A B} (m : M A) (k : A -> M B) w :
  exists rest, events (bind m k w) = (events (m w) ++ rest)%list.
Proof.
  unfold bind. destruct (m w) as [[[a|e] w1] ev1].
  - destruct (k a w1) as [[c w2] ev2]. now exists ev2.
  - exists []. unfold events. simpl. now rewrite app_nil_r.
Qed.

Lemma events_try_catch_prefix {A} (m : M A) (h : JsThrown -> M A) w :
  exists rest, events (try_catch m h w) = (events (m w) ++ rest)%list.
Proof.
  unfold try_catch. destruct (m w) as [[[a|e] w1] ev1].
  - exists []. unfold events. simpl. now rewrite app_nil_r.
  - destruct (h e w1) as [[c w2] ev2]. now exists ev2.
Qed.





(** ** Station discovery *)

Lemma returns_ret {A} (Q : A -> Prop) a : Q a -> returns Q (ret a).
Proof. intros H w a' E. injection E as <-. exact H. Qed.

Lemma returns_throw {A} (Q : A -> Prop) e : returns Q (@throw A e).
Proof. intros w a E. discriminate E. Qed.

Lemma returns_bind {A B} (P : A -> Prop) (Q : B -> Prop) (m : M A) (k : A -> M B) :
  returns P m -> (forall a, P a -> returns Q (k a)) -> returns Q (bind m k).
Proof.
  intros Hm Hk w b. unfold bind. specialize (Hm w).
  destruct (m w) as [[[a|e] w1] ev1]; [|discriminate].
  specialize (Hk a (Hm a eq_refl) w1 b).
  destruct (k a w1) as [[c w2] ev2]. exact Hk.
Qed.

Lemma returns_any {A} (m : M A) : returns (fun _ => True) m.
Proof. intros w a _. exact I. Qed.

Lemma returns_try_catch {A} (Q : A -> Prop) (m : M A) (h : JsThrown -> M A) :
  returns Q m -> (forall e, returns Q (h e)) -> returns Q (try_catch m h).
Proof.
  intros Hm Hh w a. unfold try_catch. specialize (Hm w a).
  destruct (m w) as [[[a'|e] w1] ev1]; [exact Hm|].
  specialize (Hh e w1 a). destruct (h e w1) as [[c w2] ev2]. exact Hh.
Qed.

Lemma returns_new_Response (Q : HttpResponse -> Prop) body status :
  (200 <= status <= 599 ->
   Q {| out_status := status;
        out_headers := [("content-type", "application/json")];
        out_body := body |}) ->
  returns Q (new_Response body status).
Proof.
  intros H. unfold new_Response.
  destruct ((200 <=? status) && (status <=? 599)) eqn:Hr.
  - apply returns_ret, H. apply andb_true_iff in Hr. lia.
  - apply returns_throw.
Qed.

(** An error response is not a success list. *)
Lemma returns_error_Response body status :
  status <> 200 -> returns noEmptySuccess (new_Response body status).
Proof.
  intros Hne. apply returns_new_Response. intros _ H200. simpl in H200. contradiction.
Qed.

Lemma returns_mapM_length {A B} (f : A -> M B) (l : list A) :
  returns (fun l' => List.length l' = List.length l) (mapM f l).
Proof.
  induction l as [|x l IH]; simpl.
  - now apply returns_ret.
  - apply returns_bind with (P := fun _ => True); [apply returns_any | intros y _].
    apply returns_bind with (P := fun l' => List.length l' = List.length l);
      [exact IH | intros ys Hys].
    apply returns_ret. simpl. now rewrite Hys.
Qed.

Lemma returns_chargers_map chargers :
  isZero (lengthOf chargers) = false ->
  returns (fun v => exists items, items <> [] /\ v = JArr items) (chargers_map chargers).
Proof.
  intros Hz. destruct chargers as [| | | | |items|]; try apply returns_throw.
  simpl.
  apply returns_bind with (P := fun l' => List.length l' = List.length items);
    [apply returns_mapM_length | intros l' Hl'].
  apply returns_ret. exists l'. split; [|reflexivity].
  destruct items; [discriminate Hz|]. destruct l'; [discriminate Hl' | discriminate].
Qed.

Lemma returns_listChargers chargerRes : returns noEmptySuccess (listChargers chargerRes).
Proof.
  unfold listChargers.
  apply returns_bind with (P := fun _ => True); [apply returns_any | intros chargerJson _].
  apply returns_bind with (P := fun _ => True); [apply returns_any | intros data _].
  destruct (isZero (lengthOf (js_or data (JArr [])))) eqn:Hz.
  - apply returns_error_Response. discriminate.
  - eapply returns_bind; [apply returns_chargers_map, Hz|].
    intros list (items & Hne & ->).
    apply returns_new_Response. intros _ _. exists items. split; [exact Hne | reflexivity].
Qed.

Lemma returns_discover authRes : returns noEmptySuccess (discover authRes).
Proof.
  unfold discover.
  apply returns_bind with (P := fun _ => True); [apply returns_any | intros authJson _].
  apply returns_bind with (P := fun _ => True); [apply returns_any | intros userId _].
  apply returns_bind with (P := fun _ => True); [apply returns_any | intros sessionToken _].
  apply returns_bind with (P := fun _ => True); [apply returns_any | intros failed _].
  destruct failed; [apply returns_error_Response; discriminate|].
  destruct (negb (truthy userId)); [apply returns_error_Response; discriminate|].
  apply returns_bind
    with (P := fun r => match r with
                        | inl resp => noEmptySuccess resp
                        | inr _ => True
                        end).
  - apply returns_try_catch.
    + apply returns_bind with (P := fun _ => True); [apply returns_any | intros res _].
      now apply returns_ret.
    + intros chargerErr.
      eapply returns_bind; [apply returns_error_Response; discriminate|].
      intros resp Hresp. now apply returns_ret.
  - intros [resp|chargerRes] Hr; [now apply returns_ret | apply returns_listChargers].
Qed.

Lemma returns_setupRoute env : returns noEmptySuccess (setupRoute env).
Proof.
  unfold setupRoute.
  apply returns_try_catch; [|intros err; apply returns_error_Response; discriminate].
  apply returns_bind
    with (P := fun r => match r with
                        | inl resp => noEmptySuccess resp
                        | inr _ => True
                        end).
  - apply returns_try_catch.
    + apply returns_bind with (P := fun _ => True); [apply returns_any | intros res _].
      now apply returns_ret.
    + intros authErr.
      eapply returns_bind; [apply returns_error_Response; discriminate|].
      intros resp Hresp. now apply returns_ret.
  - intros [resp|authRes] Hr; [now apply returns_ret|].
    destruct (negb (resp_ok authRes)) eqn:Hok; [|apply returns_discover].
    apply returns_bind with (P := fun _ => True); [apply returns_any | intros bodyText _].
    apply returns_error_Response. intros H200.
    unfold resp_ok in Hok. rewrite H200 in Hok. discriminate Hok.
Qed.

(** The charger-list step on a reply with no station. *)
Lemma listChargers_none chargerRes chargerJson w :
  resp_json chargerRes = inr chargerJson ->
  nullish chargerJson = false ->
  stationsOf chargerJson = JArr [] ->
  listChargers chargerRes w
  = (Normal {| out_status := 404;
               out_headers := [("content-type", "application/json")];
               out_body := JSON_stringify (JObj [("error", JStr "No home chargers found");
                                                 ("response", chargerJson)]) |},
     w, []).
Proof.
  intros Ej Hn Hs. unfold listChargers, json. rewrite Ej.
  unfold bind at 1, ret at 1. cbv beta iota.
  assert (Eg : getProp chargerJson "data" = ret (optProp chargerJson "data")).
  { destruct chargerJson; try reflexivity; discriminate Hn. }
  rewrite Eg. unfold bind at 1, ret at 1. cbv beta iota.
  unfold stationsOf in Hs. rewrite Hs. reflexivity.
Qed.


Lemma setup_dispatch request env :
  in_pathname request = "/setup" -> in_method request = "POST" ->
  fetch_handler request env = setupRoute env.
Proof. intros Hp Hm. unfold fetch_handler. rewrite Hp, Hm. reflexivity. Qed.

(** [C9] When the discovery route has logged in and the charger-list reply
    holds no station ([data] missing, falsy or an empty array), the route
    answers 404 with the error [No home chargers found]; and no answer of
    the route with status 200 ever carries an empty list. *)
Theorem discovery_without_stations_is_an_error
    request env w authRes w1 ev1 authJson userId sessionToken
    chargerRes w2 ev2 chargerJson :
  in_pathname request = "/setup" ->
  in_method request = "POST" ->
  fetchWithRetry (fetch (authRequest env)) w = (Normal authRes, w1, ev1) ->
  resp_ok authRes = true ->
  resp_json authRes = inr authJson ->
  result (extractUserId authJson w1) = Normal userId ->
  truthy userId = true ->
  result (extractSessionToken authJson w1) = Normal sessionToken ->
  truthy sessionToken = true ->
  truthy (optProp authJson "error") = false ->
  fetchWithRetry (fetch (chargersRequest userId sessionToken)) w1
  = (Normal chargerRes, w2, ev2) ->
  resp_json chargerRes = inr chargerJson ->
  nullish chargerJson = false ->
  stationsOf chargerJson = JArr [] ->
  fetch_handler request env w
  = (Normal {| out_status := 404;
               out_headers := [("content-type", "application/json")];
               out_body := JSON_stringify (JObj [("error", JStr "No home chargers found");
                                                 ("response", chargerJson)]) |},
     w2, (ev1 ++ ev2)%list)
  /\ forall w' resp,
       result (fetch_handler request env w') = Normal resp -> noEmptySuccess resp.
Proof.
  intros Hp Hm Eauth Hok Ejson Eu Hu Et Ht Herr Echargers Ecj Hnn Hzero.
  rewrite (setup_dispatch request env Hp Hm). split.
  2: { intros w' resp. apply returns_setupRoute. }
  assert (Hobj : getProp authJson "error" = ret (optProp authJson "error")).
  { destruct authJson; try reflexivity; vm_compute in Eu; discriminate Eu. }
  unfold setupRoute, try_catch.
  unfold bind at 1. unfold bind at 1. rewrite Eauth. unfold ret at 1. cbv beta iota.
  rewrite Hok. cbn [negb].
  unfold discover.
  unfold bind at 1. unfold json at 1. rewrite Ejson. unfold ret at 1. cbv beta iota.
  unfold bind at 1. rewrite (silent_run (silent_extractUserId authJson) w1), Eu.
  cbv beta iota.
  unfold bind at 1. rewrite (silent_run (silent_extractSessionToken authJson) w1), Et.
  cbv beta iota. rewrite Ht, Hu. cbn [negb].
  unfold bind at 1. unfold bind at 1. rewrite Hobj. unfold ret at 1. cbv beta iota.
  rewrite Herr. unfold ret at 1. cbv beta iota.
  unfold bind at 1. unfold try_catch. unfold bind at 1. rewrite Echargers.
  unfold ret at 1. cbv beta iota.
  rewrite (listChargers_none chargerRes w2 Ecj Hnn Hzero).
  cbn [app]. rewrite !app_nil_r. reflexivity.
Qed.

Lemma discovery_without_stations_is_an_error_witness :
  fetch_handler setupRequest sampleEnv (freshWorld emptyGarageNet 0)
  = (Normal {| out_status := 404;
               out_headers := [("content-type", "application/json")];
               out_body := JSON_stringify (JObj [("error", JStr "No home chargers found");
                                                 ("response", JObj [("data", JArr [])])]) |},
     {| net := emptyGarageNet; calls := 2; clock := 0 |},
     [EvFetch (authRequest sampleEnv);
      EvFetch (chargersRequest (JStr "U") (JStr "T0K3N"))]).
Proof.
  apply (@discovery_without_stations_is_an_error
           setupRequest sampleEnv (freshWorld emptyGarageNet 0)
           loginReply {| net := emptyGarageNet; calls := 1; clock := 0 |}
           [EvFetch (authRequest sampleEnv)]
           (JObj [("userid", JStr "U"); ("access_token", JStr "T0K3N")])
           (JStr "U") (JStr "T0K3N")
           noChargersReply {| net := emptyGarageNet; calls := 2; clock := 0 |}
           [EvFetch (chargersRequest (JStr "U") (JStr "T0K3N"))]
           (JObj [("data", JArr [])])); reflexivity.
Defined.


(** * Further properties *)

(** ** Every run of the retry loop *)

Ltac same_run :=
  match goal with
  | |- (?c, ?w1, ?e1) = (?c, ?w2, ?e2) =>
      replace w2 with w1 by (f_equal; lia); reflexivity
  end.

(** The run of [fetchWithRetry] whose first success is attempt [k + 1]. *)
Lemma fetchWithRetry_ok_at req w k r :
  (k <= 2)%nat ->
  (forall i, (i < k)%nat -> failing (upcoming w req i) = true) ->
  upcoming w req k = Responds r ->
  resp_ok r = true ->
  fetchWithRetry (fetch req) w
  = (Normal r, worldPlus w (S k) (BASE_DELAY_MS * (2 ^ Z.of_nat k - 1)),
     retryEvents req k).
Proof.
  intros Hk Hfail Hr Hok.
  assert (F0 : (0 < k)%nat -> failing (net w (calls w) req) = true).
  { intros H. specialize (Hfail 0%nat H). unfold upcoming in Hfail.
    now rewrite Nat.add_0_r in Hfail. }
  assert (F1 : (1 < k)%nat -> failing (net w (S (calls w)) req) = true).
  { intros H. specialize (Hfail 1%nat H). unfold upcoming in Hfail.
    now replace (calls w + 1)%nat with (S (calls w)) in Hfail by lia. }
  unfold upcoming in Hr.
  unfold fetchWithRetry, worldPlus. simpl retry_loop. unfold bind.
  destruct k as [|[|[|k]]]; [| | |lia].
  - rewrite Nat.add_0_r in Hr.
    rewrite attempt_once_fetch, Hr, Hok. unfold ret. simpl.
    same_run.
  - replace (calls w + 1)%nat with (S (calls w)) in Hr by lia.
    specialize (F0 ltac:(lia)).
    rewrite attempt_once_fetch.
    destruct (net w (calls w) req) as [r0|e0]; simpl in F0;
      [apply negb_true_iff in F0; rewrite F0|];
      simpl; rewrite attempt_once_fetch; simpl; rewrite Hr, Hok; unfold ret; simpl;
      same_run.
  - replace (calls w + 2)%nat with (S (S (calls w))) in Hr by lia.
    specialize (F0 ltac:(lia)). specialize (F1 ltac:(lia)).
    rewrite attempt_once_fetch.
    destruct (net w (calls w) req) as [r0|e0]; simpl in F0;
      [apply negb_true_iff in F0; rewrite F0|];
      simpl; rewrite attempt_once_fetch; simpl;
      (destruct (net w (S (calls w)) req) as [r1|e1]; simpl in F1;
       [apply negb_true_iff in F1; rewrite F1|]);
      simpl; rewrite attempt_once_fetch; simpl; rewrite Hr, Hok; unfold ret; simpl;
      same_run.
Qed.

(** Every run of [fetchWithRetry] is one of four: a success at the first,
    second or third attempt, or three failures. *)
Lemma fetchWithRetry_cases req w :
  (exists k r,
      (k <= 2)%nat
      /\ (forall i, (i < k)%nat -> failing (upcoming w req i) = true)
      /\ upcoming w req k = Responds r /\ resp_ok r = true
      /\ fetchWithRetry (fetch req) w
         = (Normal r, worldPlus w (S k) (BASE_DELAY_MS * (2 ^ Z.of_nat k - 1)),
            retryEvents req k))
  \/ (failing (upcoming w req 0) = true /\ failing (upcoming w req 1) = true
      /\ failing (upcoming w req 2) = true
      /\ exists c,
           fetchWithRetry (fetch req) w = (c, worldPlus w 3 6000, retryEvents req 2)
           /\ forall r, c = Normal r -> resp_ok r = false).
Proof.
  destruct (failing (upcoming w req 0)) eqn:F0.
  2: { left. destruct (upcoming w req 0) as [r|e] eqn:E; [|discriminate F0].
       apply negb_false_iff in F0. exists 0%nat, r.
       split; [lia|]. split; [intros i Hi; lia|]. split; [exact E|]. split; [exact F0|].
       apply fetchWithRetry_ok_at; auto. intros i Hi; lia. }
  destruct (failing (upcoming w req 1)) eqn:F1.
  2: { left. destruct (upcoming w req 1) as [r|e] eqn:E; [|discriminate F1].
       apply negb_false_iff in F1. exists 1%nat, r.
       assert (Hf : forall i, (i < 1)%nat -> failing (upcoming w req i) = true).
       { intros i Hi. replace i with 0%nat by lia. exact F0. }
       split; [lia|]. split; [exact Hf|]. split; [exact E|]. split; [exact F1|].
       apply fetchWithRetry_ok_at; auto. }
  destruct (failing (upcoming w req 2)) eqn:F2.
  2: { left. destruct (upcoming w req 2) as [r|e] eqn:E; [|discriminate F2].
       apply negb_false_iff in F2. exists 2%nat, r.
       assert (Hf : forall i, (i < 2)%nat -> failing (upcoming w req i) = true).
       { intros i Hi. destruct i as [|[|i]]; [exact F0 | exact F1 | lia]. }
       split; [lia|]. split; [exact Hf|]. split; [exact E|]. split; [exact F2|].
       apply fetchWithRetry_ok_at; auto. }
  right. repeat (split; [reflexivity|]).
  destruct (fetchWithRetry_exhausted req w F0 F1 F2) as (le & E & Hle).
  rewrite E. eexists. split.
  - replace (worldPlus w 3 6000)
      with {| net := net w; calls := (calls w + 3)%nat; clock := clock w + 2000 + 4000 |}
      by (unfold worldPlus; f_equal; lia).
    reflexivity.
  - intros r Hr.
    assert (Hlast : forall o, lastResponseOf [upcoming w req 0; upcoming w req 1;
                                               upcoming w req 2] = Some o ->
                              resp_ok o = false).
    { unfold lastResponseOf. simpl. intros o.
      destruct (upcoming w req 0) as [r0|e0], (upcoming w req 1) as [r1|e1],
        (upcoming w req 2) as [r2|e2]; simpl in F0, F1, F2; intros [=]; subst;
        now apply negb_true_iff. }
    destruct (lastResponseOf _) as [o|]; simpl in Hr.
    + injection Hr as <-. now apply Hlast.
    + destruct (instanceofError le); discriminate Hr.
Qed.


(** [X1] [fetchWithRetry] stops at the first attempt that succeeds: when the
    first [k] attempts fail and attempt [k + 1] gets a response with a status
    in 200..299, that response is returned after exactly [k + 1] requests and
    the first [k] of the waits 2000, 4000; nothing is sent or waited for
    after it. *)
Theorem fetchWithRetry_stops_at_first_success req w k r :
  (k <= 2)%nat ->
  (forall i, (i < k)%nat -> failing (upcoming w req i) = true) ->
  upcoming w req k = Responds r ->
  resp_ok r = true ->
  result (fetchWithRetry (fetch req) w) = Normal r
  /\ events (fetchWithRetry (fetch req) w) = retryEvents req k
  /\ attempts (events (fetchWithRetry (fetch req) w)) = S k
  /\ waits (events (fetchWithRetry (fetch req) w)) = firstn k [2000; 4000]
  /\ calls (world_after (fetchWithRetry (fetch req) w)) = (calls w + S k)%nat.
Proof.
  intros Hk Hfail Hr Hok.
  rewrite (fetchWithRetry_ok_at req w Hk Hfail Hr Hok).
  unfold result, events, world_after. cbn [fst snd].
  destruct k as [|[|[|k]]]; [| | |lia]; repeat split.
Qed.

Lemma fetchWithRetry_stops_at_first_success_witness :
  result (fetchWithRetry (fetch (startRequest sampleEnv (JStr "U") (JStr "T0K3N")))
            (freshWorld (flakyStartNet 0) 0))
  = Normal acceptedReply
  /\ events (fetchWithRetry (fetch (startRequest sampleEnv (JStr "U") (JStr "T0K3N")))
               (freshWorld (flakyStartNet 0) 0))
     = retryEvents (startRequest sampleEnv (JStr "U") (JStr "T0K3N")) 1
  /\ attempts (events (fetchWithRetry
                         (fetch (startRequest sampleEnv (JStr "U") (JStr "T0K3N")))
                         (freshWorld (flakyStartNet 0) 0))) = 2%nat
  /\ waits (events (fetchWithRetry
                      (fetch (startRequest sampleEnv (JStr "U") (JStr "T0K3N")))
                      (freshWorld (flakyStartNet 0) 0))) = [2000]
  /\ calls (world_after (fetchWithRetry
                           (fetch (startRequest sampleEnv (JStr "U") (JStr "T0K3N")))
                           (freshWorld (flakyStartNet 0) 0))) = 2%nat.
Proof.
  apply (@fetchWithRetry_stops_at_first_success
           (startRequest sampleEnv (JStr "U") (JStr "T0K3N"))
           (freshWorld (flakyStartNet 0) 0) 1 acceptedReply); try reflexivity.
  - lia.
  - intros i Hi. replace i with 0%nat by lia. reflexivity.
Defined.

Ltac bounded_run :=
  unfold attempts, waits, waitedMs, retryEvents, worldPlus, BASE_DELAY_MS; simpl;
  split; [lia|]; split; [reflexivity|];
  split; [lia|]; split; [lia|]; split; [lia|];
  let e := fresh "e" in
  let He := fresh "He" in
  intros e He;
  repeat (destruct He as [<-|He]; [eauto|]); contradiction.

(** [X2] Whatever the network answers, one call of [fetchWithRetry] sends
    the request at least once and at most three times, waits only between
    attempts (2000 ms, then 4000 ms: at most 6000 ms in all), and leaves the
    request counter and the clock advanced by exactly what it sent and
    waited. *)
Theorem fetchWithRetry_bounded req w :
  let r := fetchWithRetry (fetch req) w in
  (1 <= attempts (events r) <= 3)%nat
  /\ waits (events r) = firstn (attempts (events r) - 1) [2000; 4000]
  /\ waitedMs (events r) <= 6000
  /\ calls (world_after r) = (calls w + attempts (events r))%nat
  /\ clock (world_after r) = clock w + waitedMs (events r)
  /\ forall e, In e (events r) -> e = EvFetch req \/ exists ms, e = EvDelay ms.
Proof.
  intros r. subst r.
  destruct (fetchWithRetry_cases req w)
    as [(k & r & Hk & _ & _ & _ & E) | (_ & _ & _ & c & E & _)];
    rewrite E; unfold events, world_after; cbn [fst snd].
  - destruct k as [|[|[|k]]]; [| | |lia]; bounded_run.
  - bounded_run.
Qed.

(** [X3] [fetchWithRetry] gives up only after the third attempt: when what
    it hands back is not a response with a status in 200..299 (it returns a
    failed response or throws), all three attempts were made, each failed,
    and both waits were served. *)
Theorem fetchWithRetry_gives_up_after_three req w :
  (forall r, result (fetchWithRetry (fetch req) w) = Normal r -> resp_ok r = false) ->
  attempts (events (fetchWithRetry (fetch req) w)) = 3%nat
  /\ waits (events (fetchWithRetry (fetch req) w)) = [2000; 4000]
  /\ failing (upcoming w req 0) = true
  /\ failing (upcoming w req 1) = true
  /\ failing (upcoming w req 2) = true.
Proof.
  intros Hbad.
  destruct (fetchWithRetry_cases req w)
    as [(k & r & _ & _ & _ & Hok & E) | (F0 & F1 & F2 & c & E & _)].
  - rewrite E in Hbad. specialize (Hbad r eq_refl). congruence.
  - rewrite E. unfold events. cbn [snd]. repeat split; assumption.
Qed.

Lemma fetchWithRetry_gives_up_after_three_witness :
  attempts (events (fetchWithRetry (fetch (authRequest sampleEnv))
                      (freshWorld netDown 0))) = 3%nat
  /\ waits (events (fetchWithRetry (fetch (authRequest sampleEnv))
                      (freshWorld netDown 0))) = [2000; 4000]
  /\ failing (upcoming (freshWorld netDown 0) (authRequest sampleEnv) 0) = true
  /\ failing (upcoming (freshWorld netDown 0) (authRequest sampleEnv) 1) = true
  /\ failing (upcoming (freshWorld netDown 0) (authRequest sampleEnv) 2) = true.
Proof.
  apply (@fetchWithRetry_gives_up_after_three (authRequest sampleEnv)
           (freshWorld netDown 0)).
  intros r Hr. vm_compute in Hr. discriminate Hr.
Defined.


(** ** The trace of the charge flow *)

Lemma fetchWithRetry_shape req w :
  exists k c w1,
    (k <= 2)%nat
    /\ fetchWithRetry (fetch req) w = (c, w1, retryEvents req k)
    /\ (forall r, c = Normal r -> resp_ok r = false -> k = 2%nat)
    /\ (forall e, c = Throw e -> k = 2%nat).
Proof.
  destruct (fetchWithRetry_cases req w)
    as [(k & r & Hk & _ & _ & Hok & E) | (_ & _ & _ & c & E & _)].
  - exists k, (Normal r), (worldPlus w (S k) (BASE_DELAY_MS * (2 ^ Z.of_nat k - 1))).
    split; [exact Hk|]. split; [exact E|]. split.
    + intros r' [= <-] Hbad. congruence.
    + intros e [=].
  - exists 2%nat, c, (worldPlus w 3 6000). split; [lia|]. split; [exact E|].
    split; intros; reflexivity.
Qed.

Lemma report_events {A} args sendAlerts env msg (v : A) w :
  exists w' ev,
    (console_error args ;;; alertIf sendAlerts env msg ;;; ret v) w = (Normal v, w', ev)
    /\ reportEvents sendAlerts env msg ev.
Proof.
  unfold bind, console_error, ret, alertIf. destruct sendAlerts.
  - destruct (sendAlert_run env URGENT_SUBJECT msg w) as (log & -> & Hlog).
    do 2 eexists. split; [reflexivity|].
    exists args, log. split; [|exact Hlog]. simpl. now rewrite app_nil_r.
  - do 2 eexists. split; [reflexivity|].
    exists args, []. split; [reflexivity | now left].
Qed.

Lemma authenticate_trace env sendAlerts w :
  exists c w' k tail,
    (k <= 2)%nat
    /\ authenticate env sendAlerts w
       = (Normal c, w', (retryEvents (authRequest env) k ++ tail)%list)
    /\ match c with
       | inl res =>
           exists msg, res = failure msg /\ authFailureText msg
                       /\ reportEvents sendAlerts env msg tail
       | inr (userId, sessionToken) =>
           tail = [] /\ truthy userId = true /\ truthy sessionToken = true
       end.
Proof.
  destruct (fetchWithRetry_shape (authRequest env) w) as (k & c1 & w1 & Hk & E & _).
  unfold authenticate, try_catch. unfold bind at 1. rewrite E.
  assert (Hfail : forall e,
    exists c w' k' tail,
      (k' <= 2)%nat
      /\ (let (p0, ev2) :=
            (console_error [authErrorText e] ;;;
             alertIf sendAlerts env (authErrorText e) ;;;
             ret (inl (failure (authErrorText e)))) w1 in
          let (c1, w2) := p0 in
          (c1, w2, (retryEvents (authRequest env) k ++ ev2)%list))
         = (Normal c, w', (retryEvents (authRequest env) k' ++ tail)%list)
      /\ match c with
         | inl res =>
             exists msg, res = failure msg /\ authFailureText msg
                         /\ reportEvents sendAlerts env msg tail
         | inr (userId, sessionToken) =>
             tail = [] /\ truthy userId = true /\ truthy sessionToken = true
         end).
  { intros e.
    destruct (report_events [authErrorText e] sendAlerts env (authErrorText e)
                (@inl ActionResult (JsValue * JsValue) (failure (authErrorText e))) w1)
      as (w' & ev & -> & Hrep).
    exists (inl (failure (authErrorText e))), w', k, ev.
    split; [exact Hk|]. split; [reflexivity|].
    eexists. split; [reflexivity|]. split; [right; now exists e | exact Hrep]. }
  destruct c1 as [authRes|e]; [|apply Hfail].
  silently (silent_json authRes) w1; [|rewrite app_nil_r; apply Hfail].
  rename a into authJson.
  silently (silent_extractUserId authJson) w1; [|rewrite app_nil_r; apply Hfail].
  rename a into userId.
  silently (silent_extractSessionToken authJson) w1; [|rewrite app_nil_r; apply Hfail].
  rename a into sessionToken.
  destruct (negb (truthy userId) || negb (truthy sessionToken)) eqn:Hempty.
  - silently (silent_getProp authJson "userid") w1; [|rewrite app_nil_r; apply Hfail].
    rename a into userid.
    silently (silent_getProp authJson "sessionStorage") w1;
      [|rewrite app_nil_r; apply Hfail].
    rename a into ss.
    match goal with
    | |- context [(console_error ?args ;;; alertIf _ _ ?msg ;;; ret ?v) w1] =>
        destruct (report_events args sendAlerts env msg v w1) as (w' & ev & -> & Hrep)
    end.
    cbn [app]. do 2 eexists. exists k, ev.
    split; [exact Hk|]. split; [reflexivity|].
    eexists. split; [reflexivity|]. split; [|exact Hrep].
    left. now exists userid, (truthy (optProp ss "coulomb_sess")).
  - apply orb_false_iff in Hempty. destruct Hempty as [Hu Ht].
    apply negb_false_iff in Hu, Ht.
    unfold ret. cbn [app]. do 2 eexists. exists k, [].
    split; [exact Hk|]. split; [reflexivity|]. repeat split; assumption.
Qed.

Lemma startSession_trace env sendAlerts userId sessionToken w :
  exists res w' k tail,
    (k <= 2)%nat
    /\ startSession env sendAlerts userId sessionToken w
       = (Normal res, w',
          (retryEvents (startRequest env userId sessionToken) k ++ tail)%list)
    /\ ((res = {| ok := true; error := None |} /\ tail = [])
        \/ (exists msg,
               res = failure msg /\ startFailureText msg /\ k = 2%nat
               /\ reportEvents sendAlerts env msg tail)).
Proof.
  destruct (fetchWithRetry_shape (startRequest env userId sessionToken) w)
    as (k & c1 & w1 & Hk & E & Hbad & Hthrow).
  unfold startSession, try_catch. unfold bind at 1. rewrite E.
  destruct c1 as [startRes|e].
  - destruct (resp_ok startRes) eqn:Hok; cbn [negb].
    + unfold ret. do 2 eexists. exists k, []. split; [exact Hk|].
      split; [reflexivity|]. left. split; reflexivity.
    + unfold text. unfold bind at 1, ret at 1.
      match goal with
      | |- context [(console_error ?args ;;; alertIf _ _ ?msg ;;; ret ?v) w1] =>
          destruct (report_events args sendAlerts env msg v w1) as (w' & ev & -> & Hrep)
      end.
      cbn [app]. do 2 eexists. exists k, ev. split; [exact Hk|].
      split; [reflexivity|]. right.
      eexists. split; [reflexivity|]. split; [left; now exists startRes|].
      split; [now apply (Hbad startRes) | exact Hrep].
  - match goal with
    | |- context [(console_error ?args ;;; alertIf _ _ ?msg ;;; ret ?v) w1] =>
        destruct (report_events args sendAlerts env msg v w1) as (w' & ev & -> & Hrep)
    end.
    do 2 eexists. exists k, ev. split; [exact Hk|].
    split; [reflexivity|]. right.
    eexists. split; [reflexivity|]. split; [right; now exists e|].
    split; [now apply (Hthrow e) | exact Hrep].
Qed.

Lemma performChargeFlow_trace env sendAlerts w :
  exists res w' ev,
    performChargeFlow env sendAlerts w = (Normal res, w', ev)
    /\ flowTrace env sendAlerts res ev.
Proof.
  unfold performChargeFlow, bind.
  destruct (authenticate_trace env sendAlerts w) as (c & w1 & ka & tail & Hka & -> & Hc).
  destruct c as [res|[userId sessionToken]].
  - destruct Hc as (msg & -> & Htext & Hrep).
    unfold ret. do 3 eexists. split; [reflexivity|].
    exists ka, tail, []. split; [exact Hka|]. split.
    + now rewrite !app_nil_r.
    + left. exists msg. auto.
  - destruct Hc as (-> & Hu & Ht).
    destruct (startSession_trace env sendAlerts userId sessionToken w1)
      as (res & w2 & ks & stail & Hks & -> & Hres).
    do 3 eexists. split; [reflexivity|].
    exists ka, [], (retryEvents (startRequest env userId sessionToken) ks ++ stail)%list.
    split; [exact Hka|]. split.
    + now rewrite app_nil_r.
    + right. split; [reflexivity|].
      exists userId, sessionToken, ks, stail. auto.
Qed.


(** Split a flow trace into its concrete shapes. *)
Ltac trace_shapes H :=
  let Hka := fresh "Hka" in
  let Hks := fresh "Hks" in
  let Hlog := fresh "Hlog" in
  destruct H as (ka & authTail & startEv & Hka & -> &
                 [ (msg & -> & Htext & (args & log & -> & Hlog) & ->)
                 | (-> & userId & sessionToken & ks & startTail & Hu & Ht & Hks & -> &
                    [ [-> ->]
                    | (msg & -> & Htext & -> & (args & log & -> & Hlog)) ]) ]);
  destruct ka as [|[|[|ka]]]; try lia;
  try (destruct ks as [|[|[|ks]]]; try lia);
  try (destruct Hlog as [->|[? ->]]).

(** [X4] The charge flow logs exactly its failures: a successful flow writes
    no [console.error] line; a failed flow writes exactly one line of its
    own, and at most one more, from [sendAlert], when alerts are on. *)
Theorem flow_logs_each_failure_once env sendAlerts w :
  exists res,
    result (performChargeFlow env sendAlerts w) = Normal res
    /\ (ok res = true ->
        consoleErrors (events (performChargeFlow env sendAlerts w)) = 0%nat)
    /\ (ok res = false ->
        (1 <= consoleErrors (events (performChargeFlow env sendAlerts w)) <= 2)%nat
        /\ (sendAlerts = false ->
            consoleErrors (events (performChargeFlow env sendAlerts w)) = 1%nat)).
Proof.
  destruct (performChargeFlow_trace env sendAlerts w) as (res & w' & ev & E & Htrace).
  exists res. rewrite E. unfold result, events. cbn [fst snd]. split; [reflexivity|].
  trace_shapes Htrace; (split; [intros Hok|intros Hok]); try discriminate Hok;
    try reflexivity;
    destruct sendAlerts; (split; [vm_compute; lia | intros Hs]);
    try discriminate Hs; reflexivity.
Qed.

(** [X5] One charge flow sends at least one and at most three login
    requests, at most three start-session requests, at most one alert and
    nothing to the charger-list endpoint (at most seven requests in all),
    and spends at most twelve seconds in backoff waits. *)
Theorem flow_requests_bounded env sendAlerts w :
  let ev := events (performChargeFlow env sendAlerts w) in
  (1 <= requestsTo AUTH_URL ev <= 3)%nat
  /\ (requestsTo START_SESSION_URL ev <= 3)%nat
  /\ (alertsSent ev <= 1)%nat
  /\ requestsTo HOME_CHARGERS_URL ev = 0%nat
  /\ attempts ev
     = (requestsTo AUTH_URL ev + requestsTo START_SESSION_URL ev + alertsSent ev)%nat
  /\ waitedMs ev <= 12000.
Proof.
  intros ev. subst ev.
  destruct (performChargeFlow_trace env sendAlerts w) as (res & w' & ev & E & Htrace).
  rewrite E. unfold events. cbn [snd].
  trace_shapes Htrace; try destruct sendAlerts;
    (split; [vm_compute; lia|]); (split; [vm_compute; lia|]);
    (split; [vm_compute; lia|]); (split; [reflexivity|]);
    (split; [reflexivity|]); vm_compute; discriminate.
Qed.

(** [X6] The requests of a charge flow come in order: first the login
    requests, then the start-session requests, then the alert if there is
    one; nothing is requested after the alert and no login request follows
    a start-session request. *)
Theorem flow_requests_in_order env sendAlerts w :
  exists loginEv startEv reportEv,
    events (performChargeFlow env sendAlerts w) = (loginEv ++ startEv ++ reportEv)%list
    /\ attempts loginEv = requestsTo AUTH_URL loginEv
    /\ attempts startEv = requestsTo START_SESSION_URL startEv
    /\ attempts reportEv = alertsSent reportEv
    /\ waits reportEv = [].
Proof.
  destruct (performChargeFlow_trace env sendAlerts w) as (res & w' & ev & E & Htrace).
  rewrite E. unfold events. cbn [snd].
  destruct Htrace as (ka & authTail & startEv & Hka & -> &
                      [ (msg & -> & Htext & (args & log & -> & Hlog) & ->)
                      | (-> & userId & sessionToken & ks & startTail & Hu & Ht & Hks & -> &
                         [ [-> ->]
                         | (msg & -> & Htext & -> & (args & log & -> & Hlog)) ]) ]).
  - eexists (retryEvents (authRequest env) ka), [], _.
    split; [reflexivity|].
    destruct ka as [|[|[|ka]]]; try lia;
      destruct Hlog as [->|[? ->]]; destruct sendAlerts; repeat split.
  - exists (retryEvents (authRequest env) ka),
      (retryEvents (startRequest env userId sessionToken) ks), [].
    split; [reflexivity|].
    destruct ka as [|[|[|ka]]]; try lia; destruct ks as [|[|[|ks]]]; try lia;
      repeat split.
  - eexists (retryEvents (authRequest env) ka),
      (retryEvents (startRequest env userId sessionToken) 2), _.
    split; [cbn [app]; reflexivity|].
    destruct ka as [|[|[|ka]]]; try lia;
      destruct Hlog as [->|[? ->]]; destruct sendAlerts; repeat split.
Qed.

(** [X7] The charge flow reports a start-session failure only after the
    third attempt: when the flow fails after having called the start-session
    endpoint at all, it called it exactly three times and served both waits
    of that call. *)
Theorem start_failure_means_three_attempts env sendAlerts w res :
  result (performChargeFlow env sendAlerts w) = Normal res ->
  ok res = false ->
  (0 < requestsTo START_SESSION_URL (events (performChargeFlow env sendAlerts w)))%nat ->
  requestsTo START_SESSION_URL (events (performChargeFlow env sendAlerts w)) = 3%nat
  /\ 6000 <= waitedMs (events (performChargeFlow env sendAlerts w)).
Proof.
  destruct (performChargeFlow_trace env sendAlerts w) as (res' & w' & ev & E & Htrace).
  rewrite E. unfold result, events. cbn [fst snd]. intros [= <-] Hbad Hpos.
  trace_shapes Htrace; try discriminate Hbad;
    try (exfalso; revert Hpos; destruct sendAlerts; vm_compute; lia);
    destruct sendAlerts; split; try reflexivity; vm_compute; discriminate.
Qed.

Lemma start_failure_means_three_attempts_witness :
  requestsTo START_SESSION_URL
    (events (performChargeFlow sampleEnv true (freshWorld echoNet 0))) = 3%nat
  /\ 6000 <= waitedMs (events (performChargeFlow sampleEnv true (freshWorld echoNet 0))).
Proof.
  apply (@start_failure_means_three_attempts sampleEnv true (freshWorld echoNet 0)
           (failure ("Start session failed: 500" ++ newline ++ "invalid session T0K3N")));
    [reflexivity | reflexivity | vm_compute; lia].
Defined.


(** ** From the login to the start-session call *)

(** [authenticate] hands over the two values when both are truthy. *)
Lemma authenticate_success env sendAlerts w authRes w1 ev1 authJson userId sessionToken :
  fetchWithRetry (fetch (authRequest env)) w = (Normal authRes, w1, ev1) ->
  resp_json authRes = inr authJson ->
  result (extractUserId authJson w1) = Normal userId ->
  result (extractSessionToken authJson w1) = Normal sessionToken ->
  truthy userId = true ->
  truthy sessionToken = true ->
  authenticate env sendAlerts w = (Normal (inr (userId, sessionToken)), w1, ev1).
Proof.
  intros Efetch Ejson Eu Et Hu Ht.
  unfold authenticate, try_catch.
  unfold bind at 1. rewrite Efetch.
  unfold bind at 1. unfold json. rewrite Ejson. unfold ret at 1. cbv beta iota.
  unfold bind at 1. rewrite (silent_run (silent_extractUserId authJson) w1), Eu.
  cbv beta iota.
  unfold bind at 1. rewrite (silent_run (silent_extractSessionToken authJson) w1), Et.
  cbv beta iota. rewrite Hu, Ht. unfold ret. cbn [negb orb app].
  now rewrite !app_nil_r.
Qed.

(** [startSession] on a call that ends with an accepted response. *)
Lemma startSession_accepted env sendAlerts userId sessionToken w r w' ev :
  fetchWithRetry (fetch (startRequest env userId sessionToken)) w = (Normal r, w', ev) ->
  resp_ok r = true ->
  startSession env sendAlerts userId sessionToken w
  = (Normal {| ok := true; error := None |}, w', ev).
Proof.
  intros E Hok. unfold startSession, try_catch. unfold bind at 1.
  rewrite E, Hok. unfold ret. cbn [negb]. now rewrite app_nil_r.
Qed.

(** [X8] The charge flow never looks at the HTTP status of the login
    response: whatever response the login call ends with, when its JSON body
    yields a truthy identifier and a truthy token the flow goes on to the
    start-session call with those two values, and its result is the result
    of that call. *)
Theorem flow_ignores_login_status env sendAlerts w authRes w1 ev1 authJson
    userId sessionToken :
  fetchWithRetry (fetch (authRequest env)) w = (Normal authRes, w1, ev1) ->
  resp_json authRes = inr authJson ->
  result (extractUserId authJson w1) = Normal userId ->
  result (extractSessionToken authJson w1) = Normal sessionToken ->
  truthy userId = true ->
  truthy sessionToken = true ->
  result (performChargeFlow env sendAlerts w)
  = result (startSession env sendAlerts userId sessionToken w1)
  /\ events (performChargeFlow env sendAlerts w)
     = (ev1 ++ events (startSession env sendAlerts userId sessionToken w1))%list
  /\ exists rest,
       events (startSession env sendAlerts userId sessionToken w1)
       = EvFetch (startRequest env userId sessionToken) :: rest.
Proof.
  intros Efetch Ejson Eu Et Hu Ht.
  unfold performChargeFlow. unfold bind.
  rewrite (authenticate_success env sendAlerts w Efetch Ejson Eu Et Hu Ht).
  destruct (startSession env sendAlerts userId sessionToken w1) as [[c w2] ev2] eqn:Es.
  unfold result, events. cbn [fst snd]. split; [reflexivity|]. split; [reflexivity|].
  pose proof (f_equal (fun x => snd x) Es) as Hev. cbn [snd] in Hev. rewrite <- Hev.
  unfold startSession.
  match goal with
  | |- context [try_catch ?m ?h w1] =>
      destruct (events_try_catch_prefix m h w1) as [r1 Hr1]
  end.
  unfold events in Hr1. rewrite Hr1.
  match goal with
  | |- context [bind ?m ?k w1] =>
      destruct (events_bind_prefix m k w1) as [r2 Hr2]
  end.
  unfold events in Hr2. rewrite Hr2.
  destruct (fetchWithRetry_first (startRequest env userId sessionToken) w1) as [ev Hf].
  unfold events in Hf. rewrite Hf. simpl. eauto.
Qed.

Lemma flow_ignores_login_status_witness :
  result (performChargeFlow sampleEnv true (freshWorld refusedLoginNet 0))
  = result (startSession sampleEnv true (JStr "U") (JStr "T0K3N")
              (worldPlus (freshWorld refusedLoginNet 0) 3 6000))
  /\ events (performChargeFlow sampleEnv true (freshWorld refusedLoginNet 0))
     = (retryEvents (authRequest sampleEnv) 2
          ++ events (startSession sampleEnv true (JStr "U") (JStr "T0K3N")
                       (worldPlus (freshWorld refusedLoginNet 0) 3 6000)))%list
  /\ exists rest,
       events (startSession sampleEnv true (JStr "U") (JStr "T0K3N")
                 (worldPlus (freshWorld refusedLoginNet 0) 3 6000))
       = EvFetch (startRequest sampleEnv (JStr "U") (JStr "T0K3N")) :: rest.
Proof.
  apply (@flow_ignores_login_status sampleEnv true (freshWorld refusedLoginNet 0)
           (jsonResponse 401 (JObj [("userid", JStr "U"); ("access_token", JStr "T0K3N")]))
           (worldPlus (freshWorld refusedLoginNet 0) 3 6000)
           (retryEvents (authRequest sampleEnv) 2)
           (JObj [("userid", JStr "U"); ("access_token", JStr "T0K3N")])
           (JStr "U") (JStr "T0K3N")); reflexivity.
Defined.

(** [X9] A start-session call that fails once and then succeeds costs one
    wait and no alert: when the login succeeds at the first attempt and the
    start-session call fails at its first attempt and is accepted at its
    second, the flow returns [ok: true] after four requests and one wait of
    2000 ms, without logging or alerting. *)
Theorem flow_recovers_on_second_start_attempt env sendAlerts w authRes authJson
    userId sessionToken startRes :
  net w (calls w) (authRequest env) = Responds authRes ->
  resp_ok authRes = true ->
  resp_json authRes = inr authJson ->
  result (extractUserId authJson w) = Normal userId ->
  result (extractSessionToken authJson w) = Normal sessionToken ->
  truthy userId = true ->
  truthy sessionToken = true ->
  failing (net w (calls w + 1)%nat (startRequest env userId sessionToken)) = true ->
  net w (calls w + 2)%nat (startRequest env userId sessionToken) = Responds startRes ->
  resp_ok startRes = true ->
  performChargeFlow env sendAlerts w
  = (Normal {| ok := true; error := None |},
     worldPlus w 3 2000,
     [EvFetch (authRequest env);
      EvFetch (startRequest env userId sessionToken);
      EvDelay 2000;
      EvFetch (startRequest env userId sessionToken)]).
Proof.
  intros Eauth Hok Ejson Eu Et Hu Ht Ffail Estart Hsok.
  set (w1 := worldPlus w 1 (BASE_DELAY_MS * (2 ^ Z.of_nat 0 - 1))).
  assert (E1 : fetchWithRetry (fetch (authRequest env)) w
               = (Normal authRes, w1, retryEvents (authRequest env) 0)).
  { apply fetchWithRetry_ok_at; [lia | intros i Hi; lia | | exact Hok].
    unfold upcoming. now rewrite Nat.add_0_r. }
  assert (E2 : fetchWithRetry (fetch (startRequest env userId sessionToken)) w1
               = (Normal startRes,
                  worldPlus w1 2 (BASE_DELAY_MS * (2 ^ Z.of_nat 1 - 1)),
                  retryEvents (startRequest env userId sessionToken) 1)).
  { apply fetchWithRetry_ok_at; [lia | | | exact Hsok].
    - intros i Hi. replace i with 0%nat by lia.
      unfold upcoming, w1, worldPlus. cbn [net calls].
      now rewrite Nat.add_0_r.
    - unfold upcoming, w1, worldPlus. cbn [net calls].
      now replace (calls w + 1 + 1)%nat with (calls w + 2)%nat by lia. }
  rewrite (silent_result (silent_extractUserId authJson) w w1) in Eu.
  rewrite (silent_result (silent_extractSessionToken authJson) w w1) in Et.
  unfold performChargeFlow, bind.
  rewrite (authenticate_success env sendAlerts w E1 Ejson Eu Et Hu Ht).
  rewrite (startSession_accepted env sendAlerts userId sessionToken w1 E2 Hsok).
  f_equal. f_equal. unfold w1, worldPlus. cbn [net calls clock]. f_equal.
  - lia.
  - unfold BASE_DELAY_MS. simpl. lia.
Qed.

Lemma flow_recovers_on_second_start_attempt_witness :
  performChargeFlow sampleEnv true (freshWorld (flakyStartNet 1) 0)
  = (Normal {| ok := true; error := None |},
     worldPlus (freshWorld (flakyStartNet 1) 0) 3 2000,
     [EvFetch (authRequest sampleEnv);
      EvFetch (startRequest sampleEnv (JStr "U") (JStr "T0K3N"));
      EvDelay 2000;
      EvFetch (startRequest sampleEnv (JStr "U") (JStr "T0K3N"))]).
Proof.
  apply (@flow_recovers_on_second_start_attempt sampleEnv true
           (freshWorld (flakyStartNet 1) 0) loginReply
           (JObj [("userid", JStr "U"); ("access_token", JStr "T0K3N")])
           (JStr "U") (JStr "T0K3N") acceptedReply); reflexivity.
Defined.


(** ** Reading the login response *)

Lemma truthy_js_or a b : truthy (js_or a b) = truthy a || truthy b.
Proof. unfold js_or. destruct (truthy a) eqn:E; [now rewrite E | reflexivity]. Qed.

(** [X10] The session token is the first truthy one of
    [sessionStorage.coulomb_sess], [access_token] and [auth_token], in that
    order, and the empty string when none is: on a login body that is not
    [null] the extraction never throws, and the token is truthy exactly when
    one of the three fields is.  On a [null] body both extractions throw a
    [TypeError]. *)
Theorem session_token_is_first_truthy_field authJson w :
  (nullish authJson = false ->
   result (extractSessionToken authJson w)
   = Normal (js_or (optProp (optProp authJson "sessionStorage") "coulomb_sess")
               (js_or (optProp authJson "access_token")
                  (js_or (optProp authJson "auth_token") (JStr ""))))
   /\ forall token,
        result (extractSessionToken authJson w) = Normal token ->
        truthy token
        = truthy (optProp (optProp authJson "sessionStorage") "coulomb_sess")
          || truthy (optProp authJson "access_token")
          || truthy (optProp authJson "auth_token"))
  /\ (nullish authJson = true ->
      (exists msg, result (extractSessionToken authJson w)
                   = Throw (JsError "TypeError" msg))
      /\ exists msg, result (extractUserId authJson w) = Throw (JsError "TypeError" msg)).
Proof.
  split.
  - intros Hnn.
    assert (Hget : forall k, getProp authJson k = ret (optProp authJson k)).
    { intros k. destruct authJson; try reflexivity; discriminate Hnn. }
    assert (E : result (extractSessionToken authJson w)
                = Normal (js_or (optProp (optProp authJson "sessionStorage") "coulomb_sess")
                            (js_or (optProp authJson "access_token")
                               (js_or (optProp authJson "auth_token") (JStr ""))))).
    { unfold extractSessionToken, orElse, bind, js_or. rewrite !Hget. unfold ret.
      destruct (truthy (optProp (optProp authJson "sessionStorage") "coulomb_sess"))
        eqn:Ec; cbv beta iota; rewrite ?Ec; [reflexivity|].
      destruct (truthy (optProp authJson "access_token")) eqn:Ea;
        cbv beta iota; rewrite ?Ea; [reflexivity|].
      destruct (truthy (optProp authJson "auth_token")) eqn:Et;
        cbv beta iota; rewrite ?Et; reflexivity. }
    split; [exact E|].
    intros token Ht. rewrite E in Ht. injection Ht as <-.
    rewrite !truthy_js_or. simpl. now rewrite orb_false_r, orb_assoc.
  - intros Hn. destruct authJson; try discriminate Hn; split; eexists; reflexivity.
Qed.

Lemma session_token_is_first_truthy_field_witness :
  result (extractSessionToken
            (JObj [("auth_token", JStr "old"); ("access_token", JStr "T0K3N")])
            (freshWorld netDown 0))
  = Normal (JStr "T0K3N").
Proof.
  apply (proj1 (@session_token_is_first_truthy_field
                  (JObj [("auth_token", JStr "old"); ("access_token", JStr "T0K3N")])
                  (freshWorld netDown 0)) eq_refl).
Defined.

(** [X11] The subject identifier is [userid] when that field is truthy;
    otherwise it is always a string: the text of the first truthy one of
    [user.id] and [user.user_id] (a numeric id becomes its decimal text), or
    the empty string. *)
Theorem user_id_falls_back_to_a_string authJson w :
  nullish authJson = false ->
  (truthy (optProp authJson "userid") = true ->
   result (extractUserId authJson w) = Normal (optProp authJson "userid"))
  /\ (truthy (optProp authJson "userid") = false ->
      result (extractUserId authJson w)
      = Normal (JStr (ToString
                        (js_or (optProp (optProp authJson "user") "id")
                           (js_or (optProp (optProp authJson "user") "user_id")
                              (JStr ""))))))
  /\ forall n,
       truthy (optProp authJson "userid") = false ->
       optProp (optProp authJson "user") "id" = JNum n ->
       n <> 0 ->
       result (extractUserId authJson w) = Normal (JStr (string_of_Z n)).
Proof.
  intros Hnn.
  assert (Hget : forall k, getProp authJson k = ret (optProp authJson k)).
  { intros k. destruct authJson; try reflexivity; discriminate Hnn. }
  assert (E : truthy (optProp authJson "userid") = false ->
              result (extractUserId authJson w)
              = Normal (JStr (ToString
                                (js_or (optProp (optProp authJson "user") "id")
                                   (js_or (optProp (optProp authJson "user") "user_id")
                                      (JStr "")))))).
  { intros Hu. unfold extractUserId, orElse, bind, js_or. rewrite !Hget. unfold ret.
    rewrite Hu. cbv beta iota.
    destruct (truthy (optProp (optProp authJson "user") "id")) eqn:Ei;
      cbv beta iota; rewrite ?Ei; [reflexivity|].
    destruct (truthy (optProp (optProp authJson "user") "user_id")) eqn:Ej;
      cbv beta iota; rewrite ?Ej; reflexivity. }
  split; [|split; [exact E|]].
  - intros Hu. unfold extractUserId, orElse, bind. rewrite !Hget. unfold ret.
    now rewrite Hu.
  - intros n Hu Hid Hn. rewrite (E Hu), Hid. unfold js_or. simpl.
    destruct (Z.eqb_spec n 0); [contradiction | reflexivity].
Qed.

Lemma user_id_falls_back_to_a_string_witness :
  result (extractUserId (JObj [("user", JObj [("user_id", JNum 42)])])
            (freshWorld netDown 0))
  = Normal (JStr "42").
Proof.
  apply (proj1 (proj2 (@user_id_falls_back_to_a_string
                         (JObj [("user", JObj [("user_id", JNum 42)])])
                         (freshWorld netDown 0) eq_refl)) eq_refl).
Defined.
